(** * MERlin image preprocessing: [merlin/analysis/preprocess.py]

    A shallow embedding of the [Preprocess] and [DeconvolutionPreprocess]
    analysis tasks, and the properties of the restoration specification
    that can be stated over it.

    Conventions of the embedding:
    - a Python exception is a value of [exn]; code that may raise returns a
      [result], and the statements of a Python block are sequenced with the
      bind of that monad, so the first exception aborts the block;
    - a [dict] with string keys is a [gmap string pyval];
    - a 2-D [numpy] array is a list of rows; a [uint16] array holds [Z], a
      [float64] image holds [Q].  The pixels the code of this file
      computes itself are differences of 16-bit integers, where binary
      floating point is exact, so the rational and the float agree.  The
      kernel width is computed from a parameter of any magnitude: the
      embedding computes it for the numbers where float64 and int64
      arithmetic round nothing, and takes the result for the other numbers
      from the platform ([filter_size]).  A parameter may be NaN or an
      infinity ([VNaN], [VInf]); the images hold finite values.  The
      histograms are [float64] arrays that hold counts, integers far below
      [2^53], and are kept in [Z];
    - the collaborators that live outside this file ([cv2], the data set,
      the codebook, the warp task, [merlin.util.deconvolve]) are records
      and a class of functions. *)

From Stdlib Require Import ZArith QArith Qround Qabs List String Lia
  Permutation.
From stdpp Require Import base gmap strings list fin_maps pretty.

Local Open Scope Z_scope.

(** ** Exceptions and the error monad *)

Inductive exn : Type :=
| KeyError (key : string)
| IndexError
| TypeError
| ValueError
| OverflowError
| HistogramNotFound (fov : Z)
| ExternalError (what : string).

Inductive result (A : Type) : Type :=
| Ok (a : A)
| Raise (e : exn).

Arguments Ok {A} a.
Arguments Raise {A} e.

#[global] Instance result_ret : MRet result := fun _ a => Ok a.
#[global] Instance result_bind : MBind result := fun _ _ f m =>
  match m with
  | Ok a => f a
  | Raise e => Raise e
  end.

(** The result of [f] on what [r] returns. *)
Definition result_map {A B} (f : A -> B) (r : result A) : result B :=
  match r with
  | Ok a => Ok (f a)
  | Raise e => Raise e
  end.

(** [for x in l: acc = body(acc, x)], where the body may raise. *)
Fixpoint foldM {A B} (body : A -> B -> result A) (acc : A) (l : list B)
  : result A :=
  match l with
  | [] => Ok acc
  | x :: l' => acc' ← body acc x; foldM body acc' l'
  end.

(** ** Python values held by the parameter dictionary

    An [int], a finite [float], the floats NaN and plus or minus
    infinity, and a [str]. *)

Inductive pyval : Type :=
| VInt (n : Z)
| VFloat (x : Q)
| VNaN
| VInf (negative : bool)
| VStr (s : string).

Abbreviation params := (gmap string pyval).

(** [d[k]] *)
Definition getitem (d : params) (k : string) : result pyval :=
  match d !! k with
  | Some v => Ok v
  | None => Raise (KeyError k)
  end.

(** [if k not in d: d[k] = v] *)
Definition set_if_absent (k : string) (v : pyval) (d : params) : params :=
  match d !! k with
  | Some _ => d
  | None => <[k := v]> d
  end.

(** [int(x)] of a finite float: truncation toward zero. *)
Definition py_int (x : Q) : Z :=
  if Qle_bool 0 x then Qfloor x else Qceiling x.

(** ** Arrays and the numerical collaborators *)

Abbreviation image A := (list (list A)).

(** [np.iinfo(np.uint16).max] *)
Definition uint16_max : Z := 65535.

(** The numerical collaborators and what numpy leaves to the platform:
    [cv2.GaussianBlur(src, (k, k), sigma, borderType=BORDER_REPLICATE)];
    [merlin.util.deconvolve.deconvolve_lucyrichardson(image, windowSize,
    sigmaG, iterationCount)]; the integer that the C cast behind
    [astype(np.uint16)] produces for a float whose integer part is negative
    or does not fit in 32 bits; and what [int(2 * np.ceil(2 * sigma) + 1)]
    gives for a number of magnitude above [2^50], where float64 rounds or
    overflows and int64 wraps around: a rounded or wrapped integer, or an
    exception such as OverflowError, depending on the value, its type and
    the numpy version. *)
Class ImageOps : Type := {
  GaussianBlur : image Z -> Z -> pyval -> result (image Z);
  deconvolve_lucyrichardson :
    image Q -> pyval -> pyval -> pyval -> result (image Q);
  uint16_overflow : Q -> Z;
  filter_size_inexact : pyval -> result Z
}.

(** The numbers for which no step of [int(2 * np.ceil(2 * sigma) + 1)]
    rounds, overflows or wraps: magnitude at most [2^50], so that every
    intermediate value is an integer or a float of magnitude below
    [2^53]. *)
Definition in_exact_range (sigma : pyval) : bool :=
  match sigma with
  | VInt n => Z.abs n <=? 2 ^ 50
  | VFloat x => Qle_bool (Qabs x) (inject_Z (2 ^ 50))
  | _ => false
  end.

(** [int(2 * np.ceil(2 * x) + 1)] computed without rounding. *)
Definition exact_filter_size (x : Q) : Z :=
  py_int (2 * inject_Z (Qceiling (2 * x)) + 1)%Q.

(** [int(2 * np.ceil(2 * sigma) + 1)], the kernel width used for both the
    high-pass blur (line 161) and the deconvolution default (line 50).
    For a number in the exact range this is the value of the formula;
    for a larger number it is what the platform gives.  [2 * sigma]
    repeats a string, and [np.ceil] has no loop for it; NaN and the
    infinities pass through the arithmetic and [int] raises ValueError
    for the first, OverflowError for the others. *)
Definition filter_size `{ImageOps} (sigma : pyval) : result Z :=
  match sigma with
  | VInt n =>
      if in_exact_range sigma then Ok (exact_filter_size (inject_Z n))
      else filter_size_inexact sigma
  | VFloat x =>
      if in_exact_range sigma then Ok (exact_filter_size x)
      else filter_size_inexact sigma
  | VNaN => Raise ValueError
  | VInf _ => Raise OverflowError
  | VStr _ => Raise TypeError
  end.

(** ** Configuration resolution: [DeconvolutionPreprocess.__init__] *)

(** The keys that lines 44-54 may set. *)
Definition restoration_keys : list string :=
  ["highpass_sigma"; "decon_sigma"; "decon_filter_size"; "decon_iterations";
   "codebook_index"].

(** Lines 44-54, on the dictionary left in [self.parameters] by the base
    class constructor. *)
Definition resolve_parameters `{ImageOps} (parameters : params)
  : result params :=
  let parameters := set_if_absent "highpass_sigma" (VInt 3) parameters in
  let parameters := set_if_absent "decon_sigma" (VInt 2) parameters in
  parameters ←
    match parameters !! "decon_filter_size" with
    | Some _ => Ok parameters
    | None =>
        sigma ← getitem parameters "decon_sigma";
        size ← filter_size sigma;
        Ok (<["decon_filter_size" := VInt size]> parameters)
    end;
  let parameters := set_if_absent "decon_iterations" (VInt 20) parameters in
  let parameters := set_if_absent "codebook_index" (VInt 0) parameters in
  Ok parameters.

(** ** Arrays *)

(** [a.shape] of a 2-D array. *)
Definition shape {A} (a : image A) : nat * nat :=
  (length a, match a with row :: _ => length row | [] => 0%nat end).

(** Every row of [a] is as long as the row of [b] at the same index, and
    there are as many rows: the two arrays have the same dimensions. *)
Definition same_dims {A B} (a : image A) (b : image B) : Prop :=
  length <$> a = length <$> b.

(** [n] values from [start] on, [step] apart. *)
Fixpoint arange_from (start step : Z) (n : nat) : list Z :=
  match n with
  | O => []
  | S n' => start :: arange_from (start + step) step n'
  end.

(** [np.arange(start, stop, step)] for integers and a positive step: the
    values [start + i*step] below [stop]. *)
Definition np_arange (start stop step : Z) : list Z :=
  arange_from start step (Z.to_nat ((stop - start + step - 1) / step)).

(** [np.zeros((rows, cols))] *)
Definition np_zeros (sh : nat * nat) : image Z :=
  replicate (fst sh) (replicate (snd sh) 0).

(** Number of entries of [l] that satisfy [p]. *)
Fixpoint count_where (p : Z -> bool) (l : list Z) : Z :=
  match l with
  | [] => 0
  | v :: l' => (if p v then 1 else 0) + count_where p l'
  end.

(** The counts of [np.histogram] for explicit, increasing bin edges: one
    bin per pair of consecutive edges, [lo <= v < hi], except the last
    bin, which also contains its right edge. *)
Fixpoint bin_counts (edges : list Z) (samples : list Z) : list Z :=
  match edges with
  | lo :: (hi :: rest) as edges' =>
      match rest with
      | [] => [count_where (fun v => (lo <=? v) && (v <=? hi)) samples]
      | _ :: _ =>
          count_where (fun v => (lo <=? v) && (v <? hi)) samples
            :: bin_counts edges' samples
      end
  | _ => []
  end.

(** [np.histogram(a, bins=bins)[0]]: the array is flattened first. *)
Definition np_histogram (a : image Z) (bins : list Z) : list Z :=
  bin_counts bins (concat a).

(** [h[bi, :] += counts] *)
Definition row_iadd (h : image Z) (bi : nat) (counts : list Z)
  : result (image Z) :=
  match h !! bi with
  | None => Raise IndexError
  | Some row =>
      if decide (length counts = length row)
      then Ok (<[bi := zip_with Z.add row counts]> h)
      else match counts with
           | [c] => Ok (<[bi := (fun x => x + c) <$> row]> h)
           | _ => Raise ValueError
           end
  end.

(** Broadcasting of the right operand of an in-place [+=] to the shape
    [(rows, cols)] of the left one: a dimension of the operand either
    matches or has length one and is repeated. *)
Definition broadcast_row (cols : nat) (row : list Z) : result (list Z) :=
  if decide (length row = cols) then Ok row
  else match row with
       | [x] => Ok (replicate cols x)
       | _ => Raise ValueError
       end.

Definition broadcast_to (sh : nat * nat) (h : image Z) : result (image Z) :=
  rows ← mapM (broadcast_row (snd sh)) h;
  if decide (length rows = fst sh) then Ok rows
  else match rows with
       | [row] => Ok (replicate (fst sh) row)
       | _ => Raise ValueError
       end.

(** [acc += h] on 2-D arrays. *)
Definition np_iadd (acc h : image Z) : result (image Z) :=
  h' ← broadcast_to (shape acc) h;
  Ok (zip_with (zip_with Z.add) acc h').

(** Element-wise application of [f]. *)
Definition img_map {A B} (f : A -> B) (a : image A) : image B :=
  (fun row : list A => f <$> row) <$> a.

(** [a.astype(float)] *)
Definition astype_float (a : image Z) : image Q := img_map inject_Z a.

(** [x.astype(np.uint16)] of one float.  The C cast converts to a 32-bit
    integer, which drops the fraction, and keeps the low 16 bits: an
    integer part from 0 to [2^31 - 1] is reduced modulo [2^16], so a value
    from 65536 on wraps around.  A negative integer part, or one that does
    not fit in 32 bits, gives whatever 16-bit value the platform
    produces. *)
Definition uint16_of_float `{ImageOps} (x : Q) : Z :=
  let n := py_int x in
  if (0 <=? n) && (n <? 2 ^ 31) then n mod (uint16_max + 1)
  else uint16_overflow x mod (uint16_max + 1).

Definition astype_uint16 `{ImageOps} (a : image Q) : image Z :=
  img_map uint16_of_float a.

(** [a[a < 0] = 0] *)
Definition clip_negative (a : image Q) : image Q :=
  img_map (fun x : Q => if Qle_bool 0 x then x else 0%Q) a.

(** [enumerate(l)] *)
Definition enumerate {A} (l : list A) : list (nat * A) :=
  zip (seq 0 (length l)) l.

(** ** Collaborators outside this file *)

(** [merlin.data.codebook.Codebook], as far as this task uses it. *)
Record Codebook : Type := {
  get_bit_names : list string;
  get_bit_count : nat
}.

(** The warp task: [get_aligned_image(fov, dataChannel, zIndex)]. *)
Record WarpTask : Type := {
  get_aligned_image : Z -> Z -> nat -> result (image Z)
}.

(** The data set.  [numpy_results] is the part of the array store under
    the keys [('pixel_histogram', analysisName, fov, 'histograms')] of one
    task, indexed by [fov]. *)
Record DataSet : Type := {
  get_fovs : list Z;
  get_z_positions : list Q;
  get_codebook : pyval -> result Codebook;
  get_data_channel_for_bit : string -> result Z;
  load_analysis_task : pyval -> result WarpTask;
  numpy_results : gmap Z (image Z)
}.

(** Modelled from the spec: [DataSet.save_numpy_analysis_result(histogram,
    'pixel_histogram', analysisName, fov, 'histograms')], which is defined
    in [merlin/core/dataset.py] and not in this file.  The specification
    describes the persistence interface as a key/value array store: the
    array is stored under the key of the fragment. *)
Definition save_numpy_analysis_result (ds : DataSet) (histogram : image Z)
    (fov : Z) : DataSet :=
  {| get_fovs := get_fovs ds;
     get_z_positions := get_z_positions ds;
     get_codebook := get_codebook ds;
     get_data_channel_for_bit := get_data_channel_for_bit ds;
     load_analysis_task := load_analysis_task ds;
     numpy_results := <[fov := histogram]> (numpy_results ds) |}.

(** Modelled from the spec: [DataSet.load_numpy_analysis_result], which is
    defined in [merlin/core/dataset.py] and not in this file.  The
    specification says that reading the histogram of a fragment that has
    not been persisted fails with HistogramNotFound. *)
Definition load_numpy_analysis_result (ds : DataSet) (fov : Z)
  : result (image Z) :=
  match numpy_results ds !! fov with
  | Some h => Ok h
  | None => Raise (HistogramNotFound fov)
  end.

(** ** [Preprocess] *)

(** [l[0]] *)
Definition first_item {A} (l : list A) : result A :=
  match l with
  | x :: _ => Ok x
  | [] => Raise IndexError
  end.

(** [Preprocess.get_pixel_histogram(fov=None)], lines 22-32. *)
Definition get_pixel_histogram (ds : DataSet) (fov : option Z)
  : result (image Z) :=
  match fov with
  | Some f => load_numpy_analysis_result ds f
  | None =>
      f0 ← first_item (get_fovs ds);
      h0 ← load_numpy_analysis_result ds f0;
      foldM (fun pixelHistogram f =>
               h ← load_numpy_analysis_result ds f;
               np_iadd pixelHistogram h)
            (np_zeros (shape h0)) (get_fovs ds)
  end.

(** [Preprocess._save_pixel_histogram], lines 34-36. *)
Definition _save_pixel_histogram (ds : DataSet) (histogram : image Z)
    (fov : Z) : DataSet :=
  save_numpy_analysis_result ds histogram fov.

(** ** [DeconvolutionPreprocess] *)

Record DeconvolutionPreprocess : Type := {
  dataSet : DataSet;
  parameters : params;
  _highPassSigma : pyval;
  _deconSigma : pyval;
  _deconIterations : pyval;
  warpTask : WarpTask
}.

(** [__init__], lines 41-61; [parameters0] is [self.parameters] as the
    base class constructor leaves it. *)
Definition init `{ImageOps} (ds : DataSet) (parameters0 : params)
  : result DeconvolutionPreprocess :=
  parameters ← resolve_parameters parameters0;
  highPassSigma ← getitem parameters "highpass_sigma";
  deconSigma ← getitem parameters "decon_sigma";
  deconIterations ← getitem parameters "decon_iterations";
  name ← getitem parameters "warp_task";
  task ← load_analysis_task ds name;
  Ok {| dataSet := ds;
        parameters := parameters;
        _highPassSigma := highPassSigma;
        _deconSigma := deconSigma;
        _deconIterations := deconIterations;
        warpTask := task |}.

(** [self.get_codebook()], lines 75-76. *)
Definition task_codebook (self : DeconvolutionPreprocess) : result Codebook :=
  index ← getitem (parameters self) "codebook_index";
  get_codebook (dataSet self) index.

Section Restoration.
Context `{ImageOps}.

(** Lines 164-167: the high-pass stage of [_preprocess_image]. *)
Definition background_suppress (highPassSigma : pyval)
    (highPassFilterSize : Z) (inputImage : image Z) : result (image Q) :=
  blurred ← GaussianBlur inputImage highPassFilterSize highPassSigma;
  let filteredImage :=
    zip_with (zip_with Qminus) (astype_float inputImage)
             (astype_float blurred) in
  Ok (clip_negative filteredImage).

(** [_preprocess_image], lines 160-171. *)
Definition _preprocess_image (self : DeconvolutionPreprocess)
    (inputImage : image Z) : result (image Z) :=
  highPassFilterSize ← filter_size (_highPassSigma self);
  deconFilterSize ← getitem (parameters self) "decon_filter_size";
  filteredImage ←
    background_suppress (_highPassSigma self) highPassFilterSize inputImage;
  deconvolved ←
    deconvolve_lucyrichardson filteredImage deconFilterSize
      (_deconSigma self) (_deconIterations self);
  Ok (astype_uint16 deconvolved).

(** [get_processed_image] without a chromatic corrector, lines 129-135. *)
Definition get_processed_image (self : DeconvolutionPreprocess)
    (fov dataChannel : Z) (zIndex : nat) : result (image Z) :=
  inputImage ← get_aligned_image (warpTask self) fov dataChannel zIndex;
  _preprocess_image self inputImage.

(** The bin edges of line 141. *)
Definition histogramBins : list Z := np_arange 0 uint16_max 1.

(** The body of the inner loop of [_run_analysis], lines 151-156. *)
Definition accumulate_slice (self : DeconvolutionPreprocess)
    (task : WarpTask) (fragmentIndex dataChannel : Z) (bi : nat)
    (pixelHistogram : image Z) (i : nat) : result (image Z) :=
  inputImage ← get_aligned_image task fragmentIndex dataChannel i;
  deconvolvedImage ← _preprocess_image self inputImage;
  row_iadd pixelHistogram bi (np_histogram deconvolvedImage histogramBins).

(** The body of the outer loop, lines 148-156. *)
Definition accumulate_bit (self : DeconvolutionPreprocess)
    (task : WarpTask) (fragmentIndex : Z) (pixelHistogram : image Z)
    (entry : nat * string) : result (image Z) :=
  dataChannel ← get_data_channel_for_bit (dataSet self) (snd entry);
  foldM (accumulate_slice self task fragmentIndex dataChannel (fst entry))
        pixelHistogram
        (seq 0 (length (get_z_positions (dataSet self)))).

(** The histogram that [_run_analysis] builds, lines 138-156. *)
Definition fragment_histogram (self : DeconvolutionPreprocess)
    (fragmentIndex : Z) : result (image Z) :=
  name ← getitem (parameters self) "warp_task";
  task ← load_analysis_task (dataSet self) name;
  cb ← task_codebook self;
  let pixelHistogram :=
    np_zeros (get_bit_count cb, (length histogramBins - 1)%nat) in
  cb' ← task_codebook self;
  foldM (accumulate_bit self task fragmentIndex) pixelHistogram
        (enumerate (get_bit_names cb')).

(** [_run_analysis], lines 137-158: the data set after the histogram of
    the fragment has been saved. *)
Definition _run_analysis (self : DeconvolutionPreprocess)
    (fragmentIndex : Z) : result DataSet :=
  pixelHistogram ← fragment_histogram self fragmentIndex;
  Ok (_save_pixel_histogram (dataSet self) pixelHistogram fragmentIndex).

End Restoration.

(** ** Arrays as shared objects

    To speak about in-place updates the arrays live in a store and the
    code passes references.  [_preprocess_image] is embedded a second
    time on that store, statement by statement: which statement makes a
    new array and which one writes into an existing one is what the
    frame property of the pipeline depends on. *)

Inductive ndarray : Type :=
| U16 (a : image Z)
| F64 (a : image Q).

Abbreviation heap := (gmap positive ndarray).

(** A newly made array gets a reference that is not in use. *)
Definition alloc (h : heap) (a : ndarray) : heap * positive :=
  let l := fresh (dom h) in (<[l := a]> h, l).

(** The aligned images are [uint16] arrays; a reference to anything else
    is outside the embedding. *)
Definition read_u16 (h : heap) (l : positive) : result (image Z) :=
  match h !! l with
  | Some (U16 a) => Ok a
  | _ => Raise TypeError
  end.

Section RestorationOnStore.
Context `{ImageOps}.

(** What the deconvolution leaves in the buffer of its argument; the
    identity when it works on a copy. *)
Variable decon_leaves : image Q -> image Q.

(** [_preprocess_image] on references, lines 160-171. *)
Definition preprocess_image_on_store (self : DeconvolutionPreprocess)
    (h : heap) (inputImage : positive) : result (heap * positive) :=
  highPassFilterSize ← filter_size (_highPassSigma self);
  deconFilterSize ← getitem (parameters self) "decon_filter_size";
  src ← read_u16 h inputImage;
  (* inputImage.astype(float): a copy *)
  let '(h, asFloat) := alloc h (F64 (astype_float src)) in
  (* cv2.GaussianBlur without dst: reads src, returns a new array *)
  blurred ← GaussianBlur src highPassFilterSize (_highPassSigma self);
  let '(h, blurredRef) := alloc h (U16 blurred) in
  (* the difference is a new array, bound to filteredImage *)
  let difference :=
    zip_with (zip_with Qminus) (astype_float src) (astype_float blurred) in
  let '(h, filteredImage) := alloc h (F64 difference) in
  (* filteredImage[filteredImage < 0] = 0: written in place *)
  let filtered := clip_negative difference in
  let h := <[filteredImage := F64 filtered]> h in
  (* the deconvolution receives the reference filteredImage *)
  deconvolved ←
    deconvolve_lucyrichardson filtered deconFilterSize
      (_deconSigma self) (_deconIterations self);
  let h := <[filteredImage := F64 (decon_leaves filtered)]> h in
  let '(h, deconvolvedRef) := alloc h (F64 deconvolved) in
  (* .astype(np.uint16): a copy *)
  let '(h, deconvolvedImage) := alloc h (U16 (astype_uint16 deconvolved)) in
  Ok (h, deconvolvedImage).

End RestorationOnStore.

(** ** Notions used to state the properties *)

(** The final cast in the words of the specification: the fraction is
    truncated and the value is clamped to the 16-bit range. *)
Definition clamp_uint16 (x : Q) : Z :=
  Z.max 0 (Z.min uint16_max (py_int x)).

(** [h] is a rectangular array of shape [sh]. *)
Definition has_shape (sh : nat * nat) (h : image Z) : Prop :=
  length h = fst sh /\ Forall (fun row => length row = snd sh) h.

(** The entry [h[i, j]], zero outside the array. *)
Definition entry (h : image Z) (i j : nat) : Z :=
  default 0 (h !! i ≫= fun row => row !! j).

(** [sum(l)] *)
Definition sum_Z (l : list Z) : Z := foldr Z.add 0 l.

(** Element-wise sum of two arrays of one shape. *)
Definition elementwise_add (a b : image Z) : image Z :=
  zip_with (zip_with Z.add) a b.

(** The aggregate in the words of the specification: the accumulator
    starts as the histogram of the first fragment, then every other
    histogram is added element-wise. *)
Definition elementwise_sum (hs : list (image Z)) : option (image Z) :=
  match hs with
  | [] => None
  | h1 :: rest => Some (foldl elementwise_add h1 rest)
  end.

(** The same data set with its fragments enumerated as [fovs]. *)
Definition with_fovs (ds : DataSet) (fovs : list Z) : DataSet :=
  {| get_fovs := fovs;
     get_z_positions := get_z_positions ds;
     get_codebook := get_codebook ds;
     get_data_channel_for_bit := get_data_channel_for_bit ds;
     load_analysis_task := load_analysis_task ds;
     numpy_results := numpy_results ds |}.

(** The samples that fall inside the bin edges of the histogram. *)
Definition binned (v : Z) : bool := (0 <=? v) && (v <=? uint16_max - 1).

(** Every array of [h] is still in [h'], with the same content. *)
Definition frame (h h' : heap) : Prop :=
  forall l a, h !! l = Some a -> h' !! l = Some a.

(** The restored image of one depth slice, as the inner loop of
    [_run_analysis] obtains it (lines 151-153). *)
Definition restore_slice `{ImageOps} (self : DeconvolutionPreprocess)
    (task : WarpTask) (fragmentIndex dataChannel : Z) (i : nat)
  : result (image Z) :=
  inputImage ← get_aligned_image task fragmentIndex dataChannel i;
  _preprocess_image self inputImage.

(** The number of pixels of the images [imgs] that fall inside the bin
    edges. *)
Definition binned_pixels (imgs : list (image Z)) : Z :=
  sum_Z ((fun img => count_where binned (concat img)) <$> imgs).

(** The number of pixels of the images [imgs]. *)
Definition pixels (imgs : list (image Z)) : Z :=
  sum_Z ((fun img => Z.of_nat (length (concat img))) <$> imgs).

(** A row of the fragment histogram: one count per bin. *)
Definition histogram_row (row : list Z) : Prop :=
  Z.of_nat (length row) = uint16_max - 1.

(** ** The remaining methods of [Preprocess] and [DeconvolutionPreprocess] *)

(** [Preprocess._image_name], lines 17-20.  [destPath] is what
    [dataSet.get_analysis_subdirectory(analysisName,
    subdirectory='preprocessed_images')] returns for the task and [sep]
    is [os.sep]; [str(fov)] is the decimal numeral of the integer. *)
Definition _image_name (sep destPath : string) (fov : Z) : string :=
  destPath +:+ sep +:+ ("fov_" +:+ pretty fov +:+ ".tif").

(** [fragment_count], lines 63-64. *)
Definition fragment_count (self : DeconvolutionPreprocess) : nat :=
  length (get_fovs (dataSet self)).

(** [get_dependencies], lines 72-73. *)
Definition get_dependencies (self : DeconvolutionPreprocess)
  : result (list pyval) :=
  name ← getitem (parameters self) "warp_task";
  Ok [name].

(** A chromatic corrector, as the warp task sees it: the image that
    [get_aligned_image(fov, dataChannel, zIndex, chromaticCorrector)]
    returns when it is given this corrector. *)
Record ChromaticCorrector : Type := {
  corrected_aligned_image : Z -> Z -> nat -> result (image Z)
}.

(** [warpTask.get_aligned_image(fov, dataChannel, zIndex,
    chromaticCorrector)]; [None] is the default of the keyword, the call
    without a corrector. *)
Definition aligned_image (task : WarpTask)
    (chromaticCorrector : option ChromaticCorrector)
    (fov dataChannel : Z) (zIndex : nat) : result (image Z) :=
  match chromaticCorrector with
  | None => get_aligned_image task fov dataChannel zIndex
  | Some corrector => corrected_aligned_image corrector fov dataChannel zIndex
  end.

(** What [np.array] is given by [get_processed_image_set]: one list of
    slices per bit, or one image per bit.  Stacking images of one shape
    keeps this nesting. *)
Inductive image_set : Type :=
| AllSlices (perBit : list (list (image Z)))
| OneSlice (perBit : list (image Z)).

(** The data organization and the codebooks of the data set, as far as
    [write_processed_stack] uses them: [dataSet.codebooks],
    [get_sequential_rounds()], [get_data_channel_name(ch)], and the
    external [analysis_tiff_description(zCount, channelCount)] and
    [_analysis_image_name(self, 'processed_images', fov)]. *)
Record DataOrganization : Type := {
  codebooks : list Codebook;
  get_sequential_rounds : list Z * list string;
  get_data_channel_name : Z -> result string;
  analysis_tiff_description : nat -> nat -> string;
  _analysis_image_name : Z -> string
}.

(** One page of the output container: [outputTif.save(image,
    photometric='MINISBLACK', metadata=imageDescription)]. *)
Record page : Type := {
  page_image : image Z;
  page_metadata : string
}.

(** The content of a file: an image container with its pages, the
    compressed copy of a file, or the beginning of such a copy, possibly
    empty: what [open(..., 'wb')] creates and what an interrupted
    [copy_stream] leaves. *)
Inductive content : Type :=
| Tiff (pages : list page)
| Zstd (original : content)
| Partial (original : content).

Abbreviation files := (gmap string content).

(** Modelled from the spec:
    [dataSet.writer_for_analysis_images(self, 'processed_images', fov)],
    which is defined in [merlin/core/dataset.py] and not in this file.
    The specification says that the stack writer produces the image
    container that is compressed afterwards: entering the writer creates
    the file that [_analysis_image_name] names, empty, and each [save]
    appends a page to it. *)
Definition writer_open (fs : files) (imgName : string) : files :=
  <[imgName := Tiff []]> fs.

Definition writer_save (fs : files) (imgName : string) (p : page) : files :=
  match fs !! imgName with
  | Some (Tiff pages) => <[imgName := Tiff (pages ++ [p])]> fs
  | _ => fs
  end.

(** [for x in l: body(x)] on the files, where the body may raise: the
    files as the loop leaves them and the exception that stopped it. *)
Fixpoint for_each {A} (body : files -> A -> files * option exn)
    (fs : files) (l : list A) : files * option exn :=
  match l with
  | [] => (fs, None)
  | x :: l' =>
      match body fs x with
      | (fs', None) => for_each body fs' l'
      | (fs', Some e) => (fs', Some e)
      end
  end.

(** What the calls of lines 79 and 108-111 that leave the program do:
    [None] when the call returns, the exception when it raises.  In the
    order of the code: [import zstandard], [zstd.ZstdCompressor()],
    [open(imgName, 'rb')] on a file that exists, [open(compressedImgName,
    'wb')], [cctx.copy_stream(ifh, ofh)] and [os.remove(imgName)]. *)
Record StackIO : Type := {
  import_zstandard : option exn;
  ZstdCompressor : option exn;
  open_rb : option exn;
  open_wb : option exn;
  copy_stream : option exn;
  os_remove : option exn
}.

(** Every call of [io] returns. *)
Definition all_return (io : StackIO) : Prop :=
  import_zstandard io = None /\ ZstdCompressor io = None /\
  open_rb io = None /\ open_wb io = None /\
  copy_stream io = None /\ os_remove io = None.

(** Lines 108-111 on the files: the container is compressed into
    [compressedImgName], then removed.  Opening the output creates it
    before anything is copied; a call that raises leaves the files as
    they are at that point. *)
Definition compress_and_remove (io : StackIO) (fs : files)
    (imgName compressedImgName : string) : files * option exn :=
  match ZstdCompressor io with
  | Some e => (fs, Some e)
  | None =>
      match fs !! imgName with
      | None => (fs, Some (ExternalError "FileNotFoundError"))
      | Some original =>
          match open_rb io with
          | Some e => (fs, Some e)
          | None =>
              match open_wb io with
              | Some e => (fs, Some e)
              | None =>
                  let fs := <[compressedImgName := Partial original]> fs in
                  match copy_stream io with
                  | Some e => (fs, Some e)
                  | None =>
                      let fs := <[compressedImgName := Zstd original]> fs in
                      match os_remove io with
                      | Some e => (fs, Some e)
                      | None => (delete imgName fs, None)
                      end
                  end
              end
          end
      end
  end.

(** [x in ['polyT', 'DAPI']] *)
Definition passes_through (name : string) : bool :=
  bool_decide (name = "polyT") || bool_decide (name = "DAPI").

Section Stack.
Context `{ImageOps}.

(** [get_processed_image], lines 129-135, with its optional corrector. *)
Definition get_processed_image_corrected (self : DeconvolutionPreprocess)
    (fov dataChannel : Z) (zIndex : nat)
    (chromaticCorrector : option ChromaticCorrector) : result (image Z) :=
  inputImage ←
    aligned_image (warpTask self) chromaticCorrector fov dataChannel zIndex;
  _preprocess_image self inputImage.

(** One element of the comprehensions of [get_processed_image_set]: the
    channel of the bit is looked up, then the image is processed. *)
Definition processed_image_of_bit (self : DeconvolutionPreprocess)
    (fov : Z) (chromaticCorrector : option ChromaticCorrector)
    (b : string) (zIndex : nat) : result (image Z) :=
  dataChannel ← get_data_channel_for_bit (dataSet self) b;
  get_processed_image_corrected self fov dataChannel zIndex
    chromaticCorrector.

(** [get_processed_image_set], lines 113-127. *)
Definition get_processed_image_set (self : DeconvolutionPreprocess)
    (fov : Z) (zIndex : option nat)
    (chromaticCorrector : option ChromaticCorrector) : result image_set :=
  match zIndex with
  | None =>
      cb ← task_codebook self;
      perBit ←
        mapM (fun b =>
                mapM (processed_image_of_bit self fov chromaticCorrector b)
                     (seq 0 (length (get_z_positions (dataSet self)))))
             (get_bit_names cb);
      Ok (AllSlices perBit)
  | Some zIndex =>
      cb ← task_codebook self;
      perBit ←
        mapM (fun b =>
                processed_image_of_bit self fov chromaticCorrector b zIndex)
             (get_bit_names cb);
      Ok (OneSlice perBit)
  end.

(** The body of the loops of [write_processed_stack], lines 97-106: the
    page of one channel and one slice. *)
Definition stack_page (self : DeconvolutionPreprocess)
    (org : DataOrganization) (fov : Z)
    (chromaticCorrector : option ChromaticCorrector)
    (imageDescription : string) (entry : Z * nat) : result page :=
  name ← get_data_channel_name org (fst entry);
  if passes_through name then
    transformedImage ←
      get_aligned_image (warpTask self) fov (fst entry) (snd entry);
    Ok {| page_image := transformedImage;
          page_metadata := imageDescription |}
  else
    processedImage ←
      get_processed_image_corrected self fov (fst entry) (snd entry)
        chromaticCorrector;
    Ok {| page_image := processedImage;
          page_metadata := imageDescription |}.

(** One pass of the loop body on the files, lines 97-106: the page is
    computed and saved, or the exception leaves the loops. *)
Definition save_stack_page (self : DeconvolutionPreprocess)
    (org : DataOrganization) (fov : Z)
    (chromaticCorrector : option ChromaticCorrector)
    (imageDescription imgName : string) (fs : files) (entry : Z * nat)
  : files * option exn :=
  match stack_page self org fov chromaticCorrector imageDescription entry
  with
  | Ok p => (writer_save fs imgName p, None)
  | Raise e => (fs, Some e)
  end.

(** Lines 80-87: the channels of every bit of every codebook, then the
    sequential channels. *)
Definition stack_channels (self : DeconvolutionPreprocess)
    (org : DataOrganization) : result (list Z) :=
  allMultiplexChannels ←
    foldM (fun channels codebook =>
             more ← mapM (get_data_channel_for_bit (dataSet self))
                         (get_bit_names codebook);
             Ok (channels ++ more))
          [] (codebooks org);
  Ok (allMultiplexChannels ++ fst (get_sequential_rounds org)).

(** [write_processed_stack], lines 78-111, on the files: the files as the
    call leaves them and the exception it raises, if any. *)
Definition write_processed_stack (self : DeconvolutionPreprocess)
    (org : DataOrganization) (io : StackIO) (fs : files) (fov : Z)
    (chromaticCorrector : option ChromaticCorrector) : files * option exn :=
  match import_zstandard io with
  | Some e => (fs, Some e)
  | None =>
      match stack_channels self org with
      | Raise e => (fs, Some e)
      | Ok dataChannels =>
          let zPositions :=
            seq 0 (length (get_z_positions (dataSet self))) in
          let imageDescription :=
            analysis_tiff_description org (length zPositions)
              (length dataChannels) in
          let imgName := _analysis_image_name org fov in
          let compressedImgName := imgName +:+ ".zstd" in
          let fs := writer_open fs imgName in
          match
            for_each
              (save_stack_page self org fov chromaticCorrector
                 imageDescription imgName)
              fs
              (ch ← dataChannels; z ← zPositions; [(ch, z)])
          with
          | (fs, Some e) => (fs, Some e)
          | (fs, None) =>
              compress_and_remove io fs imgName compressedImgName
          end
      end
  end.

End Stack.

(** The task with another data set behind it. *)
Definition with_dataSet (self : DeconvolutionPreprocess) (ds : DataSet)
  : DeconvolutionPreprocess :=
  {| dataSet := ds;
     parameters := parameters self;
     _highPassSigma := _highPassSigma self;
     _deconSigma := _deconSigma self;
     _deconIterations := _deconIterations self;
     warpTask := warpTask self |}.

(** Every entry of the array satisfies [P]. *)
Definition all_entries {A} (P : A -> Prop) (a : image A) : Prop :=
  Forall (Forall P) a.

(** A number above zero. *)
Definition is_positive (v : pyval) : Prop :=
  match v with
  | VInt n => 0 < n
  | VFloat x => (0 < x)%Q
  | VInf negative => negative = false
  | VNaN | VStr _ => False
  end.

(** What every completed fragment histogram satisfies: [rows] rows, one
    count per bin in each, no negative count. *)
Definition histogram_of (rows : nat) (h : image Z) : Prop :=
  length h = rows /\
  Forall (fun row => histogram_row row /\ Forall (fun c => 0 <= c) row) h.

(** ** Concrete collaborators, to run the embedding on examples *)

Module Fixture.

(** Stand-ins for [cv2] and for the deconvolution that keep the
    dimensions of their argument: a blur that returns a dark image and a
    deconvolution that returns the observed image; a platform where the
    32-bit conversion behind the cast wraps a negative integer part and
    gives zero beyond 32 bits, and where a kernel width that cannot be
    computed exactly overflows. *)
Definition dark_blur (src : image Z) (_ : Z) (_ : pyval)
  : result (image Z) :=
  Ok (img_map (fun _ => 0) src).

Definition observed (img : image Q) (_ _ _ : pyval) : result (image Q) :=
  Ok img.

Definition wrap_overflow (x : Q) : Z :=
  if (- 2 ^ 31 <=? py_int x) && (py_int x <? 2 ^ 31) then py_int x else 0.

Definition ops : ImageOps :=
  {| GaussianBlur := dark_blur;
     deconvolve_lucyrichardson := observed;
     uint16_overflow := wrap_overflow;
     filter_size_inexact := fun _ => Raise OverflowError |}.

(** A warp task that returns the same aligned image for every request. *)
Definition warp_of (img : image Z) : WarpTask :=
  {| get_aligned_image := fun _ _ _ => Ok img |}.

(** A data set with one depth slice, the given fragments and bit names,
    one aligned image and the given persisted histograms. *)
Definition data_set (fovs : list Z) (bits : list string) (img : image Z)
    (store : gmap Z (image Z)) : DataSet :=
  {| get_fovs := fovs;
     get_z_positions := [0%Q];
     get_codebook := fun _ =>
       Ok {| get_bit_names := bits; get_bit_count := length bits |};
     get_data_channel_for_bit := fun _ => Ok 0;
     load_analysis_task := fun _ => Ok (warp_of img);
     numpy_results := store |}.

(** Parameters that name the warp task and nothing else. *)
Definition minimal_parameters : params := {[ "warp_task" := VStr "warp" ]}.

(** Parameters that break every invariant of the restoration
    parameters: negative and zero sigmas, an even negative filter size. *)
Definition invalid_parameters : params :=
  {[ "highpass_sigma" := VInt (-1);
     "decon_sigma" := VInt 0;
     "decon_filter_size" := VInt (-4);
     "warp_task" := VStr "warp" ]}.

(** A task object whose parameters were resolved from
    [minimal_parameters]. *)
Definition task (ds : DataSet) (img : image Z) : DeconvolutionPreprocess :=
  {| dataSet := ds;
     parameters :=
       {[ "highpass_sigma" := VInt 3;
          "decon_sigma" := VInt 2;
          "decon_filter_size" := VInt 9;
          "decon_iterations" := VInt 20;
          "codebook_index" := VInt 0;
          "warp_task" := VStr "warp" ]};
     _highPassSigma := VInt 3;
     _deconSigma := VInt 2;
     _deconIterations := VInt 20;
     warpTask := warp_of img |}.

End Fixture.

(** ** More concrete collaborators *)

Module Fixture2.

(** A task whose high-pass sigma is a string. *)
Definition string_sigma_task : DeconvolutionPreprocess :=
  {| dataSet := Fixture.data_set [0] ["bit1"] [[5; 0]] ∅;
     parameters := {[ "decon_filter_size" := VInt 9 ]};
     _highPassSigma := VStr "3";
     _deconSigma := VInt 2;
     _deconIterations := VInt 20;
     warpTask := Fixture.warp_of [[5; 0]] |}.

(** A blur that halves every pixel, rounding down. *)
Definition half_blur (src : image Z) (_ : Z) (_ : pyval)
  : result (image Z) :=
  Ok (img_map (fun v => v / 2) src).

Definition half_ops : ImageOps :=
  {| GaussianBlur := half_blur;
     deconvolve_lucyrichardson := Fixture.observed;
     uint16_overflow := Fixture.wrap_overflow;
     filter_size_inexact := fun _ => Raise OverflowError |}.

End Fixture2.

Module Fixture3.

(** A data set without depth positions whose channel mapping fails. *)
Definition no_slices_set : DataSet :=
  {| get_fovs := [0];
     get_z_positions := [];
     get_codebook := fun _ =>
       Ok {| get_bit_names := ["bit1"; "bit2"]; get_bit_count := 2 |};
     get_data_channel_for_bit := fun _ => Raise (ExternalError "channel");
     load_analysis_task := fun _ => Ok (Fixture.warp_of [[5; 0]]);
     numpy_results := ∅ |}.

(** A data set whose codebook reports fewer bits than it names. *)
Definition short_count_set : DataSet :=
  {| get_fovs := [0];
     get_z_positions := [0%Q];
     get_codebook := fun _ =>
       Ok {| get_bit_names := ["bit1"; "bit2"]; get_bit_count := 1 |};
     get_data_channel_for_bit := fun _ => Ok 0;
     load_analysis_task := fun _ => Ok (Fixture.warp_of [[5; 0]]);
     numpy_results := ∅ |}.

(** A data set without depth positions whose channel mapping answers. *)
Definition flat_set : DataSet :=
  {| get_fovs := [0];
     get_z_positions := [];
     get_codebook := fun _ =>
       Ok {| get_bit_names := ["bit1"; "bit2"]; get_bit_count := 2 |};
     get_data_channel_for_bit := fun _ => Ok 0;
     load_analysis_task := fun _ => Ok (Fixture.warp_of [[5; 0]]);
     numpy_results := ∅ |}.

End Fixture3.

Module Fixture4.

(** A data organization with one codebook of two bits and one sequential
    channel, named polyT; the channel of every bit is 0 in the data set
    of [Fixture], and channel 7 is the sequential one. *)
Definition org : DataOrganization :=
  {| codebooks :=
       [{| get_bit_names := ["bit1"; "bit2"]; get_bit_count := 2 |}];
     get_sequential_rounds := ([7], ["polyT"]);
     get_data_channel_name := fun ch =>
       if decide (ch = 7) then Ok "polyT" else Ok "bit";
     analysis_tiff_description := fun _ _ => "description";
     _analysis_image_name := fun fov =>
       "processed_images/fov_" +:+ pretty fov +:+ ".tif" |}.

(** The same, but the name of channel 7 cannot be looked up. *)
Definition nameless_org : DataOrganization :=
  {| codebooks :=
       [{| get_bit_names := ["bit1"; "bit2"]; get_bit_count := 2 |}];
     get_sequential_rounds := ([7], ["polyT"]);
     get_data_channel_name := fun ch =>
       if decide (ch = 7) then Raise (ExternalError "channel name")
       else Ok "bit";
     analysis_tiff_description := fun _ _ => "description";
     _analysis_image_name := fun fov =>
       "processed_images/fov_" +:+ pretty fov +:+ ".tif" |}.

End Fixture4.

Module Fixture5.

(** A deconvolution that brightens: every pixel is multiplied by
    14000.1, which takes the pixel 5 to 70000.5, above the 16-bit
    range. *)
Definition bright (img : image Q) (_ _ _ : pyval) : result (image Q) :=
  Ok (img_map (fun x : Q => (x * (140001 # 10))%Q) img).

Definition bright_ops : ImageOps :=
  {| GaussianBlur := Fixture.dark_blur;
     deconvolve_lucyrichardson := bright;
     uint16_overflow := Fixture.wrap_overflow;
     filter_size_inexact := fun _ => Raise OverflowError |}.

(** A task whose two bits are imaged in the channels 0 and 1, and whose
    aligned image shows the channel in its first pixel. *)
Definition channel_task : DeconvolutionPreprocess :=
  {| dataSet :=
       {| get_fovs := [0];
          get_z_positions := [0%Q];
          get_codebook := fun _ =>
            Ok {| get_bit_names := ["bit1"; "bit2"]; get_bit_count := 2 |};
          get_data_channel_for_bit := fun b =>
            if decide (b = "bit2") then Ok 1 else Ok 0;
          load_analysis_task := fun _ =>
            Ok {| get_aligned_image := fun _ ch _ => Ok [[5 + ch; 0]] |};
          numpy_results := ∅ |};
     parameters :=
       {[ "highpass_sigma" := VInt 3;
          "decon_sigma" := VInt 2;
          "decon_filter_size" := VInt 9;
          "decon_iterations" := VInt 20;
          "codebook_index" := VInt 0;
          "warp_task" := VStr "warp" ]};
     _highPassSigma := VInt 3;
     _deconSigma := VInt 2;
     _deconIterations := VInt 20;
     warpTask := {| get_aligned_image := fun _ ch _ => Ok [[5 + ch; 0]] |} |}.

(** A task whose high-pass sigma is too large for exact arithmetic. *)
Definition huge_sigma_task : DeconvolutionPreprocess :=
  {| dataSet := Fixture.data_set [0] ["bit1"] [[5; 0]] ∅;
     parameters := {[ "decon_filter_size" := VInt 9 ]};
     _highPassSigma := VFloat (inject_Z (2 ^ 52));
     _deconSigma := VInt 2;
     _deconIterations := VInt 20;
     warpTask := Fixture.warp_of [[5; 0]] |}.

(** Library and file-system calls that all return, and the same with a
    [copy_stream] that raises. *)
Definition io : StackIO :=
  {| import_zstandard := None; ZstdCompressor := None; open_rb := None;
     open_wb := None; copy_stream := None; os_remove := None |}.

Definition io_copy_fails : StackIO :=
  {| import_zstandard := None; ZstdCompressor := None; open_rb := None;
     open_wb := None; copy_stream := Some (ExternalError "OSError");
     os_remove := None |}.

End Fixture5.

(** * Properties *)

(** ** The embedding on small inputs *)

Example np_arange_five : np_arange 0 5 1 = [0; 1; 2; 3; 4].
Proof. reflexivity. Qed.

(** [np.histogram([0, 1, 1, 2, 3, 3, 4], bins=[0, 1, 2, 3])[0]]: the last
    bin holds 2 and both 3s, the 4 is outside the edges. *)
Example np_histogram_closed_last_bin :
  np_histogram [[0; 1; 1]; [2; 3; 3]; [4]] [0; 1; 2; 3] = [1; 2; 3].
Proof. reflexivity. Qed.

Example filter_size_half_integer :
  filter_size (H := Fixture.ops) (VFloat (3 # 2)) = Ok 7.
Proof. reflexivity. Qed.

Example filter_size_string :
  filter_size (H := Fixture.ops) (VStr "2") = Raise TypeError.
Proof. reflexivity. Qed.

Example filter_size_nan :
  filter_size (H := Fixture.ops) VNaN = Raise ValueError.
Proof. reflexivity. Qed.

Example uint16_of_float_fraction :
  uint16_of_float (H := Fixture.ops) (7 # 2) = 3.
Proof. reflexivity. Qed.

Example uint16_of_float_above_range :
  uint16_of_float (H := Fixture.ops) (140001 # 2) = 4464.
Proof. reflexivity. Qed.

Example row_iadd_out_of_range :
  row_iadd [[0; 0]] 1 [1; 2] = Raise IndexError.
Proof. reflexivity. Qed.

Example np_iadd_broadcast_row :
  np_iadd [[1; 2]; [3; 4]] [[10; 20]] = Ok [[11; 22]; [13; 24]].
Proof. reflexivity. Qed.

Example np_iadd_shape_mismatch :
  np_iadd [[1; 2]; [3; 4]] [[1; 2; 3]] = Raise ValueError.
Proof. reflexivity. Qed.

Example clip_negative_row :
  clip_negative [[(-3) # 1; 0 # 1; 5 # 2]]%Q = [[0 # 1; 0 # 1; 5 # 2]]%Q.
Proof. reflexivity. Qed.

(** ** Configuration resolution *)

Lemma lookup_set_if_absent (k k' : string) (v : pyval) (d : params) :
  set_if_absent k v d !! k' =
    match d !! k' with
    | Some x => Some x
    | None => if decide (k = k') then Some v else None
    end.
Proof.
  unfold set_if_absent.
  destruct (d !! k) as [x|] eqn:Hk.
  - destruct (d !! k') eqn:Hk'; [done|].
    case_decide; [congruence|done].
  - rewrite lookup_insert. case_decide as Heq.
    + subst. by rewrite Hk.
    + by destruct (d !! k').
Qed.

Lemma py_int_integer (x : Q) (z : Z) : (x == inject_Z z)%Q -> py_int x = z.
Proof.
  intros Hx. unfold py_int.
  destruct (Qle_bool 0 x).
  - by rewrite (Qfloor_comp _ _ Hx), Qfloor_Z.
  - by rewrite (Qceiling_comp _ _ Hx), Qceiling_Z.
Qed.

Section Configuration.
Context `{ImageOps}.

Lemma exact_filter_size_value (x : Q) :
  exact_filter_size x = 2 * Qceiling (2 * x) + 1.
Proof.
  unfold exact_filter_size. apply py_int_integer.
  by rewrite inject_Z_plus, inject_Z_mult.
Qed.

Lemma filter_size_int (n : Z) :
  Z.abs n <= 2 ^ 50 -> filter_size (VInt n) = Ok (2 * (2 * n) + 1).
Proof.
  intros Hn. unfold filter_size, in_exact_range.
  rewrite (proj2 (Z.leb_le _ _) Hn). f_equal.
  rewrite exact_filter_size_value. do 2 f_equal.
  rewrite <- (Qceiling_Z (2 * n)). apply Qceiling_comp.
  by rewrite inject_Z_mult.
Qed.

Lemma filter_size_float (x : Q) :
  (Qabs x <= inject_Z (2 ^ 50))%Q ->
  filter_size (VFloat x) = Ok (2 * Qceiling (2 * x) + 1).
Proof.
  intros Hx. unfold filter_size, in_exact_range.
  rewrite (proj2 (Qle_bool_iff _ _) Hx).
  by rewrite exact_filter_size_value.
Qed.

(** Inside the exact range the kernel width is computed, and it is odd. *)
Lemma filter_size_exact (v : pyval) :
  in_exact_range v = true ->
  exists n, filter_size v = Ok n /\ Z.odd n = true.
Proof.
  destruct v as [n|x| | |s]; simpl; try discriminate; intros Hv.
  - exists (2 * (2 * n) + 1). split.
    + apply filter_size_int. by apply Z.leb_le.
    + by rewrite Z.add_comm, Z.odd_add_mul_2.
  - exists (2 * Qceiling (2 * x) + 1). split.
    + apply filter_size_float. by apply Qle_bool_iff.
    + by rewrite Z.add_comm, Z.odd_add_mul_2.
Qed.

(** When the kernel width cannot be computed, the number is outside the
    exact range, or the value is no finite number: a string gives
    TypeError, NaN ValueError and an infinity OverflowError. *)
Lemma filter_size_Raise (v : pyval) (e : exn) :
  filter_size v = Raise e ->
  in_exact_range v = false /\
  match v with
  | VInt _ | VFloat _ => filter_size_inexact v = Raise e
  | VNaN => e = ValueError
  | VInf _ => e = OverflowError
  | VStr _ => e = TypeError
  end.
Proof.
  destruct v as [n|x| |neg|s]; unfold filter_size; simpl.
  - destruct (Z.abs n <=? 2 ^ 50); [discriminate|done].
  - destruct (Qle_bool (Qabs x) (inject_Z (2 ^ 50))); [discriminate|done].
  - intros Hv. by injection Hv as <-.
  - intros Hv. by injection Hv as <-.
  - intros Hv. by injection Hv as <-.
Qed.

(** The dictionary that lines 44-54 work on when they reach the filter
    size: the sigma is there, the filter size as supplied. *)
Lemma resolve_parameters_unfold (p : params) :
  resolve_parameters p =
    match p !! "decon_filter_size" with
    | Some _ =>
        Ok (set_if_absent "codebook_index" (VInt 0)
              (set_if_absent "decon_iterations" (VInt 20)
                 (set_if_absent "decon_sigma" (VInt 2)
                    (set_if_absent "highpass_sigma" (VInt 3) p))))
    | None =>
        match filter_size (default (VInt 2) (p !! "decon_sigma")) with
        | Ok size =>
            Ok (set_if_absent "codebook_index" (VInt 0)
                  (set_if_absent "decon_iterations" (VInt 20)
                     (<["decon_filter_size" := VInt size]>
                        (set_if_absent "decon_sigma" (VInt 2)
                           (set_if_absent "highpass_sigma" (VInt 3) p)))))
        | Raise e => Raise e
        end
    end.
Proof.
  unfold resolve_parameters.
  set (p1 := set_if_absent "decon_sigma" _ _).
  assert (Hsig : p1 !! "decon_sigma"
                 = Some (default (VInt 2) (p !! "decon_sigma"))).
  { unfold p1. rewrite !lookup_set_if_absent. simpl.
    by destruct (p !! "decon_sigma"). }
  assert (Hfs : p1 !! "decon_filter_size" = p !! "decon_filter_size").
  { unfold p1. rewrite !lookup_set_if_absent. simpl.
    by destruct (p !! "decon_filter_size"). }
  rewrite Hfs. destruct (p !! "decon_filter_size") as [fs|]; [done|].
  unfold getitem. rewrite Hsig. simpl.
  by destruct (filter_size _).
Qed.

(** The dictionary after lines 44-54, key by key, when the kernel width
    that has to be derived is [n]. *)
Lemma resolve_parameters_lookup (p : params) (n : Z) :
  (p !! "decon_filter_size" = None ->
   filter_size (default (VInt 2) (p !! "decon_sigma")) = Ok n) ->
  exists p' : params,
    resolve_parameters p = Ok p' /\
    forall k, p' !! k =
      match p !! k with
      | Some x => Some x
      | None =>
          if decide (k = "highpass_sigma") then Some (VInt 3)
          else if decide (k = "decon_sigma") then Some (VInt 2)
          else if decide (k = "decon_filter_size") then Some (VInt n)
          else if decide (k = "decon_iterations") then Some (VInt 20)
          else if decide (k = "codebook_index") then Some (VInt 0)
          else None
      end.
Proof.
  intros Hsize. rewrite resolve_parameters_unfold.
  destruct (p !! "decon_filter_size") as [fs|] eqn:Hp.
  - eexists. split; [done|].
    intros k. rewrite !lookup_set_if_absent.
    destruct (p !! k) eqn:Hk; [done|].
    repeat case_decide; subst; try done; congruence.
  - rewrite (Hsize eq_refl). eexists. split; [done|].
    intros k. rewrite !lookup_set_if_absent, lookup_insert.
    rewrite !lookup_set_if_absent.
    destruct (p !! k) eqn:Hk.
    + case_decide; [subst; congruence|done].
    + repeat case_decide; subst; try done; congruence.
Qed.

(** Resolution fails only while deriving the kernel width. *)
Lemma resolve_parameters_Raise (p : params) (e : exn) :
  resolve_parameters p = Raise e ->
  p !! "decon_filter_size" = None /\
  filter_size (default (VInt 2) (p !! "decon_sigma")) = Raise e.
Proof.
  rewrite resolve_parameters_unfold.
  destruct (p !! "decon_filter_size") as [fs|]; [discriminate|].
  destruct (filter_size _) as [n|e']; [discriminate|].
  intros He. by injection He as <-.
Qed.

(** A resolution that succeeded derived some kernel width, if it had to. *)
Lemma resolve_parameters_Ok_size (p p' : params) :
  resolve_parameters p = Ok p' ->
  exists n,
    (p !! "decon_filter_size" = None ->
     filter_size (default (VInt 2) (p !! "decon_sigma")) = Ok n).
Proof.
  rewrite resolve_parameters_unfold.
  destruct (p !! "decon_filter_size") as [fs|]; [by exists 0|].
  destruct (filter_size _) as [n|e']; [|discriminate].
  intros _. by exists n.
Qed.

(** The resolved dictionary, key by key, from the fact that the
    resolution returned. *)
Lemma resolve_parameters_Ok_lookup (p p' : params) :
  resolve_parameters p = Ok p' ->
  exists n : Z,
    (p !! "decon_filter_size" = None ->
     filter_size (default (VInt 2) (p !! "decon_sigma")) = Ok n) /\
    forall k, p' !! k =
      match p !! k with
      | Some x => Some x
      | None =>
          if decide (k = "highpass_sigma") then Some (VInt 3)
          else if decide (k = "decon_sigma") then Some (VInt 2)
          else if decide (k = "decon_filter_size") then Some (VInt n)
          else if decide (k = "decon_iterations") then Some (VInt 20)
          else if decide (k = "codebook_index") then Some (VInt 0)
          else None
      end.
Proof.
  intros Hres.
  destruct (resolve_parameters_Ok_size p p' Hres) as [n Hsize].
  destruct (resolve_parameters_lookup p n Hsize) as (p'' & Hres' & Hlook).
  exists n. split; [done|]. by assert (p' = p'') as -> by congruence.
Qed.

(** The kernel width of the resolved sigma, when the sigma that is
    supplied is in the exact range. *)
Lemma resolved_sigma_exact (p : params) :
  (forall v, p !! "decon_sigma" = Some v -> in_exact_range v = true) ->
  exists n, filter_size (default (VInt 2) (p !! "decon_sigma")) = Ok n.
Proof.
  intros Hexact.
  destruct (filter_size_exact (default (VInt 2) (p !! "decon_sigma")))
    as (n & Hn & _); [|by exists n].
  destruct (p !! "decon_sigma") as [v|]; simpl; [by apply Hexact|done].
Qed.

(** C2: configuration resolution fills exactly the absent fields with
    [highpass_sigma = 3], [decon_sigma = 2], [decon_iterations = 20] and
    [codebook_index = 0], derives [decon_filter_size] as
    [2 * ceil(2 * decon_sigma) + 1] from the resolved sigma only when the
    filter size itself is absent, keeps every supplied value and touches no
    other key; sigma 3 gives filter size 13 and sigma 2 gives 9.  The
    premise is that a supplied sigma from which a size has to be derived
    is a number of magnitude at most [2^50], where the float64 and int64
    arithmetic of the formula is exact; the formula is stated for these
    numbers. *)
Theorem resolve_parameters_fills_absent (p : params) :
  (p !! "decon_filter_size" = None ->
   forall v, p !! "decon_sigma" = Some v -> in_exact_range v = true) ->
  exists p' : params,
    resolve_parameters p = Ok p' /\
    (forall k v, p !! k = Some v -> p' !! k = Some v) /\
    (forall k, k ∉ restoration_keys -> p' !! k = p !! k) /\
    (p !! "highpass_sigma" = None ->
     p' !! "highpass_sigma" = Some (VInt 3)) /\
    (p !! "decon_sigma" = None -> p' !! "decon_sigma" = Some (VInt 2)) /\
    (p !! "decon_iterations" = None ->
     p' !! "decon_iterations" = Some (VInt 20)) /\
    (p !! "codebook_index" = None ->
     p' !! "codebook_index" = Some (VInt 0)) /\
    (p !! "decon_filter_size" = None ->
     exists sigma n,
       p' !! "decon_sigma" = Some sigma /\
       filter_size sigma = Ok n /\
       p' !! "decon_filter_size" = Some (VInt n)) /\
    (forall n : Z, Z.abs n <= 2 ^ 50 ->
       filter_size (VInt n) = Ok (2 * (2 * n) + 1)) /\
    (forall x : Q, (Qabs x <= inject_Z (2 ^ 50))%Q ->
       filter_size (VFloat x) = Ok (2 * Qceiling (2 * x) + 1)) /\
    (p !! "decon_filter_size" = None ->
     p !! "decon_sigma" = Some (VInt 3) ->
     p' !! "decon_filter_size" = Some (VInt 13)) /\
    (p !! "decon_filter_size" = None ->
     p !! "decon_sigma" = Some (VInt 2) \/ p !! "decon_sigma" = None ->
     p' !! "decon_filter_size" = Some (VInt 9)).
Proof.
  intros Hexact.
  set (sigma := default (VInt 2) (p !! "decon_sigma")).
  assert (Hsize : exists n,
            p !! "decon_filter_size" = None -> filter_size sigma = Ok n).
  { destruct (p !! "decon_filter_size") as [fs|] eqn:Hfs; [by exists 0|].
    destruct (resolved_sigma_exact p (Hexact eq_refl)) as [n Hn].
    by exists n. }
  destruct Hsize as [n Hsize].
  destruct (resolve_parameters_lookup p n Hsize) as (p' & Hres & Hlook).
  exists p'. split; [done|].
  split. { intros k v Hk. by rewrite Hlook, Hk. }
  split.
  { intros k Hk. rewrite Hlook. destruct (p !! k); [done|].
    unfold restoration_keys in Hk.
    repeat case_decide; subst; try done; exfalso; apply Hk; set_solver. }
  split. { intros Hk. by rewrite Hlook, Hk. }
  split. { intros Hk. by rewrite Hlook, Hk. }
  split. { intros Hk. by rewrite Hlook, Hk. }
  split. { intros Hk. by rewrite Hlook, Hk. }
  split.
  { intros Hk. exists sigma, n. split; [|split].
    - rewrite Hlook. unfold sigma. by destruct (p !! "decon_sigma").
    - by apply Hsize.
    - by rewrite Hlook, Hk. }
  split; [apply filter_size_int|].
  split; [apply filter_size_float|].
  split.
  - intros Hk Hs. rewrite Hlook, Hk. simpl.
    specialize (Hsize Hk).
    assert (sigma = VInt 3) as Hs3 by (unfold sigma; by rewrite Hs).
    rewrite Hs3, filter_size_int in Hsize by (simpl; lia).
    by inversion Hsize.
  - intros Hk Hs. rewrite Hlook, Hk. simpl.
    specialize (Hsize Hk).
    assert (sigma = VInt 2) as Hs2.
    { unfold sigma. by destruct Hs as [Hs|Hs]; rewrite Hs. }
    rewrite Hs2, filter_size_int in Hsize by (simpl; lia).
    by inversion Hsize.
Qed.

(** [__init__] as a whole: it succeeds whenever the warp task is named
    and loads and the kernel width, if it has to be derived, can be
    computed, and it hands the supplied values on unchanged. *)
Lemma init_succeeds (ds : DataSet) (p : params) (name : pyval)
    (task : WarpTask) (n : Z) :
  p !! "warp_task" = Some name ->
  load_analysis_task ds name = Ok task ->
  (p !! "decon_filter_size" = None ->
   filter_size (default (VInt 2) (p !! "decon_sigma")) = Ok n) ->
  exists p' : params,
    (forall k v, p !! k = Some v -> p' !! k = Some v) /\
    init ds p =
      Ok {| dataSet := ds;
            parameters := p';
            _highPassSigma := default (VInt 3) (p !! "highpass_sigma");
            _deconSigma := default (VInt 2) (p !! "decon_sigma");
            _deconIterations := default (VInt 20) (p !! "decon_iterations");
            warpTask := task |}.
Proof.
  intros Hname Hload Hsize.
  destruct (resolve_parameters_lookup p n Hsize) as (p' & Hres & Hlook).
  exists p'. split. { intros k v Hk. by rewrite Hlook, Hk. }
  unfold init. rewrite Hres. simpl. unfold getitem.
  rewrite !Hlook, Hname. simpl.
  destruct (p !! "highpass_sigma"), (p !! "decon_sigma"),
    (p !! "decon_iterations"); simpl; by rewrite Hload.
Qed.

(** C3, as the code has it: configuration resolution checks no value of
    a restoration parameter.  Whenever the warp task is named and loads,
    and a supplied sigma from which the filter size has to be derived is
    a number of magnitude at most [2^50], resolution succeeds and the
    task keeps the supplied [highpass_sigma], [decon_sigma],
    [decon_filter_size], [decon_iterations] and [codebook_index]
    unchanged, whether they are positive or not, odd or even. *)
Theorem init_accepts_supplied_values (ds : DataSet) (p : params)
    (name : pyval) (task : WarpTask) :
  p !! "warp_task" = Some name ->
  load_analysis_task ds name = Ok task ->
  (p !! "decon_filter_size" = None ->
   forall v, p !! "decon_sigma" = Some v -> in_exact_range v = true) ->
  exists self,
    init ds p = Ok self /\
    (forall k v, p !! k = Some v -> parameters self !! k = Some v) /\
    (forall v, p !! "highpass_sigma" = Some v -> _highPassSigma self = v) /\
    (forall v, p !! "decon_sigma" = Some v -> _deconSigma self = v) /\
    (forall v, p !! "decon_iterations" = Some v ->
               _deconIterations self = v) /\
    warpTask self = task.
Proof.
  intros Hname Hload Hexact.
  assert (Hsize : exists n,
            p !! "decon_filter_size" = None ->
            filter_size (default (VInt 2) (p !! "decon_sigma")) = Ok n).
  { destruct (p !! "decon_filter_size") as [fs|] eqn:Hfs; [by exists 0|].
    destruct (resolved_sigma_exact p (Hexact eq_refl)) as [n Hn].
    by exists n. }
  destruct Hsize as [n Hsize].
  destruct (init_succeeds ds p name task n Hname Hload Hsize)
    as (p' & Hkeep & Hinit).
  eexists. split; [exact Hinit|]. simpl.
  split; [exact Hkeep|].
  repeat split; intros v Hv; by rewrite Hv.
Qed.

End Configuration.

(** C2 on an example: only the warp task is named, every restoration
    parameter is filled in. *)
Lemma resolve_parameters_fills_absent_minimal :
  exists p' : params,
    resolve_parameters (H := Fixture.ops) Fixture.minimal_parameters
      = Ok p' /\
    p' !! "highpass_sigma" = Some (VInt 3) /\
    p' !! "decon_filter_size" = Some (VInt 9) /\
    p' !! "warp_task" = Some (VStr "warp").
Proof.
  destruct (resolve_parameters_fills_absent (H := Fixture.ops)
              Fixture.minimal_parameters)
    as (p' & Hres & Hkeep & _ & Hhp & _ & _ & _ & _ & _ & _ & _ & H9).
  { intros _ v Hv. vm_compute in Hv. discriminate. }
  exists p'. split; [exact Hres|]. split; [|split].
  - apply Hhp. reflexivity.
  - apply H9; [reflexivity|right; reflexivity].
  - apply Hkeep. reflexivity.
Defined.

(** C3 as stated fails: negative and zero sigmas and an even, negative
    filter size are accepted and stored, on every platform. *)
Lemma init_accepts_invalid_parameters :
  exists self,
    init (H := Fixture.ops) (Fixture.data_set [0] ["bit1"] [[0]] ∅)
      Fixture.invalid_parameters = Ok self /\
    _highPassSigma self = VInt (-1) /\
    _deconSigma self = VInt 0 /\
    parameters self !! "decon_filter_size" = Some (VInt (-4)).
Proof.
  eexists. split; [vm_compute; reflexivity|].
  repeat split.
Qed.

(** The amended C3 on the same parameters. *)
Lemma init_accepts_supplied_values_invalid :
  exists self,
    init (H := Fixture.ops) (Fixture.data_set [0] ["bit1"] [[0]] ∅)
      Fixture.invalid_parameters = Ok self /\
    _highPassSigma self = VInt (-1).
Proof.
  destruct (init_accepts_supplied_values (H := Fixture.ops)
              (Fixture.data_set [0] ["bit1"] [[0]] ∅)
              Fixture.invalid_parameters (VStr "warp")
              (Fixture.warp_of [[0]]))
    as (self & Hinit & _ & Hhp & _).
  - reflexivity.
  - reflexivity.
  - intros Hfs. vm_compute in Hfs. discriminate.
  - exists self. split; [exact Hinit|]. apply Hhp. reflexivity.
Defined.

(** X4: the only ways in which [__init__] fails.  The warp task is not
    named; it does not load; or the filter size has to be derived from a
    supplied [decon_sigma] for which [int(2 * np.ceil(2 * sigma) + 1)]
    raises: a string (TypeError), NaN (ValueError), an infinity
    (OverflowError), or a number of magnitude above [2^50], with the
    exception of the arithmetic.  No number of magnitude up to [2^50] is
    rejected as the value of a restoration parameter. *)
Theorem init_failures `{ImageOps} (ds : DataSet) (p : params) (e : exn) :
  init ds p = Raise e ->
  (e = KeyError "warp_task" /\ p !! "warp_task" = None) \/
  (exists name,
     p !! "warp_task" = Some name /\ load_analysis_task ds name = Raise e) \/
  (p !! "decon_filter_size" = None /\
   exists sigma,
     p !! "decon_sigma" = Some sigma /\
     in_exact_range sigma = false /\
     match sigma with
     | VInt _ | VFloat _ => filter_size_inexact sigma = Raise e
     | VNaN => e = ValueError
     | VInf _ => e = OverflowError
     | VStr _ => e = TypeError
     end).
Proof.
  intros Hinit. unfold init in Hinit.
  destruct (resolve_parameters p) as [p'|e'] eqn:Hres.
  - destruct (resolve_parameters_Ok_lookup p p' Hres) as (n & _ & Hlook).
    simpl in Hinit. unfold getitem in Hinit. rewrite !Hlook in Hinit.
    destruct (p !! "warp_task") as [name|] eqn:Hname.
    + right. left. exists name. split; [done|].
      destruct (p !! "highpass_sigma"), (p !! "decon_sigma"),
        (p !! "decon_iterations"); simpl in Hinit;
        destruct (load_analysis_task ds name); simpl in Hinit; congruence.
    + left. split; [|done].
      destruct (p !! "highpass_sigma"), (p !! "decon_sigma"),
        (p !! "decon_iterations"); simpl in Hinit; congruence.
  - simpl in Hinit. injection Hinit as ->. right. right.
    apply resolve_parameters_Raise in Hres as [Hfs Hraise].
    split; [done|].
    apply filter_size_Raise in Hraise as [Hrange Hkind].
    destruct (p !! "decon_sigma") as [sigma|]; simpl in *; [|discriminate].
    by exists sigma.
Qed.

Lemma init_failures_example :
  init (H := Fixture.ops) (Fixture.data_set [0] ["bit1"] [[0]] ∅)
    {[ "decon_sigma" := VNaN; "warp_task" := VStr "warp" ]}
  = Raise ValueError /\
  ({[ "decon_sigma" := VNaN; "warp_task" := VStr "warp" ]} : params)
    !! "decon_filter_size" = None.
Proof.
  assert (Hrun :
    init (H := Fixture.ops) (Fixture.data_set [0] ["bit1"] [[0]] ∅)
      {[ "decon_sigma" := VNaN; "warp_task" := VStr "warp" ]}
    = Raise ValueError) by reflexivity.
  split; [exact Hrun|].
  destruct (init_failures (H := Fixture.ops)
              (Fixture.data_set [0] ["bit1"] [[0]] ∅)
              {[ "decon_sigma" := VNaN; "warp_task" := VStr "warp" ]}
              ValueError Hrun)
    as [[He _]|[(name & _ & Hload)|[Hfs _]]];
    [discriminate|discriminate|exact Hfs].
Defined.

(** ** The restoration pipeline *)

Lemma img_map_dims {A B} (f : A -> B) (a : image A) :
  same_dims (img_map f a) a.
Proof.
  unfold same_dims, img_map. induction a as [|row a IH]; [done|].
  simpl. f_equal; [apply length_fmap|exact IH].
Qed.

Lemma img_map_Forall {A B} (P : B -> Prop) (f : A -> B) (a : image A) :
  (forall x, P (f x)) -> Forall (Forall P) (img_map f a).
Proof.
  intros HP. unfold img_map.
  apply Forall_fmap, Forall_forall. intros row _.
  apply Forall_fmap, Forall_forall. intros x _. apply HP.
Qed.

Lemma zip_with_dims {A B C} (f : A -> B -> C) (a : image A) (b : image B) :
  same_dims a b -> same_dims (zip_with (zip_with f) a b) a.
Proof.
  unfold same_dims. revert b.
  induction a as [|ra a IH]; intros [|rb b] Hab; try done.
  simpl in *. injection Hab as Hrow Hrest. f_equal.
  - rewrite length_zip_with. lia.
  - by apply IH.
Qed.

Lemma same_dims_trans {A B C} (a : image A) (b : image B) (c : image C) :
  same_dims a b -> same_dims b c -> same_dims a c.
Proof. unfold same_dims. congruence. Qed.

Lemma same_dims_sym {A B} (a : image A) (b : image B) :
  same_dims a b -> same_dims b a.
Proof. unfold same_dims. congruence. Qed.

Lemma clip_nonnegative (x : Q) : (0 <= (if Qle_bool 0 x then x else 0))%Q.
Proof.
  destruct (Qle_bool 0 x) eqn:Hx.
  - by apply Qle_bool_iff.
  - apply Qle_refl.
Qed.

Lemma uint16_of_float_range `{ImageOps} (x : Q) :
  0 <= uint16_of_float x <= 65535.
Proof.
  unfold uint16_of_float, uint16_max. cbv zeta.
  pose proof (Z.mod_pos_bound (py_int x) (65535 + 1)).
  pose proof (Z.mod_pos_bound (uint16_overflow x) (65535 + 1)).
  destruct ((0 <=? py_int x) && (py_int x <? 2 ^ 31)); lia.
Qed.

(** A float from 0 up to [2^31] keeps the low 16 bits of its integer
    part. *)
Lemma uint16_of_float_wraps `{ImageOps} (x : Q) :
  (0 <= x)%Q -> (x < inject_Z (2 ^ 31))%Q ->
  uint16_of_float x = Qfloor x mod 65536.
Proof.
  intros H0 H1. unfold uint16_of_float, py_int, uint16_max.
  apply Qle_bool_iff in H0 as H0'. rewrite H0'. cbv zeta.
  assert (0 <= Qfloor x).
  { change 0 with (Qfloor 0). by apply Qfloor_resp_le. }
  assert (Qfloor x < 2 ^ 31).
  { rewrite Zlt_Qlt. eapply Qle_lt_trans; [apply Qfloor_le|exact H1]. }
  destruct (Z.leb_spec 0 (Qfloor x)), (Z.ltb_spec (Qfloor x) (2 ^ 31));
    cbn [andb]; [reflexivity|lia..].
Qed.

Lemma uint16_of_float_in_range `{ImageOps} (x : Q) :
  (0 <= x)%Q -> (x < 65536)%Q -> uint16_of_float x = Qfloor x.
Proof.
  intros H0 H1. rewrite uint16_of_float_wraps; [|done|].
  - apply Z.mod_small. split.
    + change 0 with (Qfloor 0). by apply Qfloor_resp_le.
    + rewrite Zlt_Qlt. eapply Qle_lt_trans; [apply Qfloor_le|exact H1].
  - eapply Qlt_trans; [exact H1|]. reflexivity.
Qed.

Lemma img_map_Forall2 {A B} (P : A -> B -> Prop) (f : A -> B)
    (a : image A) :
  (forall x, P x (f x)) -> Forall2 (Forall2 P) a (img_map f a).
Proof.
  intros HP. unfold img_map.
  apply Forall2_fmap_r, Forall_Forall2_diag, Forall_forall. intros row _.
  apply Forall2_fmap_r, Forall_Forall2_diag, Forall_forall. intros x _.
  apply HP.
Qed.

(** C5: background suppression returns an image of the dimensions of its
    input without negative entries.  The blur is the collaborator's; its
    contract is that it returns an image of the dimensions of its source.
    The input need not even be non-negative. *)
Theorem background_suppress_nonnegative `{ImageOps} (sigma : pyval) (k : Z)
    (img blurred : image Z) :
  GaussianBlur img k sigma = Ok blurred ->
  same_dims blurred img ->
  exists out,
    background_suppress sigma k img = Ok out /\
    same_dims out img /\
    Forall (Forall (fun x => (0 <= x)%Q)) out.
Proof.
  intros Hblur Hdims. unfold background_suppress. rewrite Hblur. simpl.
  eexists. split; [reflexivity|]. split.
  - eapply same_dims_trans; [apply img_map_dims|].
    eapply same_dims_trans; [apply zip_with_dims|apply img_map_dims].
    eapply same_dims_trans; [apply img_map_dims|].
    apply same_dims_sym.
    eapply same_dims_trans; [apply img_map_dims|exact Hdims].
  - apply img_map_Forall. intros x. apply clip_nonnegative.
Qed.

Lemma background_suppress_nonnegative_example :
  exists out,
    background_suppress (H := Fixture.ops) (VInt 3) 13 [[5; 0]; [7; 65535]]
      = Ok out /\
    same_dims out [[5; 0]; [7; 65535]] /\
    Forall (Forall (fun x => (0 <= x)%Q)) out.
Proof.
  apply (background_suppress_nonnegative (H := Fixture.ops) (VInt 3) 13
           [[5; 0]; [7; 65535]] [[0; 0]; [0; 0]]).
  - reflexivity.
  - reflexivity.
Defined.

(** C6, as the code has it: the last step of the pipeline casts the
    floating-point result of the deconvolution to [uint16] with
    [astype], once, after the deconvolution has returned.  Every pixel
    of the restored image lies in [0, 65535]; the cast truncates the
    fraction, and it does not clamp: a value from 0 up to [2^31] keeps
    the low 16 bits of its integer part, so that a value from 65536 on
    wraps around, and only a value below 65536 keeps its integer
    part. *)
Theorem preprocess_image_uint16 `{ImageOps} (self : DeconvolutionPreprocess)
    (img : image Z) (k : Z) (size : pyval) (filtered deconvolved : image Q) :
  filter_size (_highPassSigma self) = Ok k ->
  getitem (parameters self) "decon_filter_size" = Ok size ->
  background_suppress (_highPassSigma self) k img = Ok filtered ->
  deconvolve_lucyrichardson filtered size (_deconSigma self)
    (_deconIterations self) = Ok deconvolved ->
  exists restored,
    _preprocess_image self img = Ok restored /\
    same_dims restored deconvolved /\
    Forall (Forall (fun v => 0 <= v <= 65535)) restored /\
    Forall2 (Forall2 (fun (x : Q) (v : Z) =>
                        ((0 <= x)%Q -> (x < inject_Z (2 ^ 31))%Q ->
                         v = Qfloor x mod 65536) /\
                        ((0 <= x)%Q -> (x < 65536)%Q -> v = Qfloor x)))
      deconvolved restored.
Proof.
  intros Hk Hsize Hfiltered Hdecon.
  exists (astype_uint16 deconvolved).
  split; [|split; [|split]].
  - unfold _preprocess_image. rewrite Hk. simpl. rewrite Hsize. simpl.
    rewrite Hfiltered. simpl. by rewrite Hdecon.
  - apply img_map_dims.
  - apply img_map_Forall, uint16_of_float_range.
  - apply img_map_Forall2. intros x. split.
    + apply uint16_of_float_wraps.
    + apply uint16_of_float_in_range.
Qed.

(** C6 as stated fails: the cast does not clamp.  A deconvolved pixel of
    70000.5 becomes 4464, where truncation and clamping give 65535. *)
Lemma preprocess_image_not_clamped :
  exists deconvolved,
    Fixture5.bright [[5%Q; 0%Q]] (VInt 9) (VInt 2) (VInt 20)
    = Ok deconvolved /\
    _preprocess_image (H := Fixture5.bright_ops)
      (Fixture.task (Fixture.data_set [0] ["bit1"] [[5; 0]] ∅) [[5; 0]])
      [[5; 0]]
    = Ok [[4464; 0]] /\
    img_map clamp_uint16 deconvolved = [[65535; 0]].
Proof. eexists. split; [reflexivity|]. split; reflexivity. Qed.

(** The amended C6 on the same image. *)
Lemma preprocess_image_uint16_example :
  exists restored,
    _preprocess_image (H := Fixture5.bright_ops)
      (Fixture.task (Fixture.data_set [0] ["bit1"] [[5; 0]] ∅) [[5; 0]])
      [[5; 0]]
    = Ok restored /\
    Forall (Forall (fun v => 0 <= v <= 65535)) restored.
Proof.
  destruct (preprocess_image_uint16 (H := Fixture5.bright_ops)
              (Fixture.task (Fixture.data_set [0] ["bit1"] [[5; 0]] ∅)
                 [[5; 0]])
              [[5; 0]] 13 (VInt 9) [[5%Q; 0%Q]]
              [[(5 * (140001 # 10))%Q; (0 * (140001 # 10))%Q]])
    as (restored & Hrun & _ & Hrange & _).
  - reflexivity.
  - reflexivity.
  - reflexivity.
  - reflexivity.
  - exists restored. split; [exact Hrun|exact Hrange].
Defined.

(** ** The histogram store and the aggregate *)

Lemma has_shape_zeros (h : image Z) (sh : nat * nat) :
  has_shape sh h -> has_shape sh (np_zeros (shape h)).
Proof.
  intros [Hlen Hrows]. destruct h as [|row h].
  - split; [exact Hlen|constructor].
  - unfold np_zeros, shape. cbn [fst snd]. split.
    + by rewrite length_replicate.
    + apply Forall_replicate. rewrite length_replicate.
      by inversion Hrows.
Qed.

Lemma shape_has_shape (h : image Z) (sh : nat * nat) :
  has_shape sh h -> h <> [] -> shape h = sh.
Proof.
  intros [Hlen Hrows] Hne. destruct h as [|row h]; [done|].
  destruct sh as [r c]. unfold shape. simpl in *.
  inversion Hrows; subst. done.
Qed.

Lemma has_shape_add (sh : nat * nat) (a b : image Z) :
  has_shape sh a -> has_shape sh b -> has_shape sh (elementwise_add a b).
Proof.
  intros [Ha Hra] [Hb Hrb]. unfold elementwise_add. split.
  - rewrite length_zip_with. lia.
  - clear Ha Hb. revert b Hrb.
    induction Hra as [|ra a Hlen _ IH]; intros [|rb b] Hrb; simpl;
      try constructor.
    + inversion Hrb; subst. rewrite length_zip_with. lia.
    + inversion Hrb; subst. by apply IH.
Qed.

Lemma zeros_add_row (n : nat) (row : list Z) :
  length row = n -> zip_with Z.add (replicate n 0) row = row.
Proof.
  intros <-. induction row as [|x row IH]; [done|].
  simpl. by rewrite IH.
Qed.

Lemma zeros_add (sh : nat * nat) (h : image Z) :
  has_shape sh h -> elementwise_add (np_zeros sh) h = h.
Proof.
  intros [Hlen Hrows]. unfold elementwise_add, np_zeros.
  rewrite <- Hlen. clear Hlen.
  induction Hrows as [|row h Hrow _ IH]; [done|].
  simpl. by rewrite IH, zeros_add_row.
Qed.

Lemma mapM_broadcast_row (c : nat) (h : image Z) :
  Forall (fun row => length row = c) h ->
  mapM (broadcast_row c) h = Ok h.
Proof.
  induction 1 as [|row h Hrow _ IH]; [done|].
  cbn [mapM].
  assert (broadcast_row c row = Ok row) as ->.
  { unfold broadcast_row. by rewrite decide_True. }
  simpl. by rewrite IH.
Qed.

(** [acc += h] on two arrays of one shape is the element-wise sum. *)
Lemma np_iadd_same_shape (sh : nat * nat) (acc h : image Z) :
  has_shape sh acc -> has_shape sh h ->
  np_iadd acc h = Ok (elementwise_add acc h).
Proof.
  intros [Ha Hra] [Hh Hrh]. unfold np_iadd, broadcast_to.
  assert (Hrows : Forall (fun row => length row = snd (shape acc)) h).
  { destruct acc as [|ra acc].
    - destruct h; [constructor|]. simpl in *. congruence.
    - simpl. inversion Hra; subst.
      eapply Forall_impl; [exact Hrh|]. simpl. congruence. }
  rewrite (mapM_broadcast_row _ _ Hrows). simpl.
  rewrite decide_True by congruence. done.
Qed.

Lemma load_persisted (ds : DataSet) (f : Z) (h : image Z) :
  numpy_results ds !! f = Some h -> load_numpy_analysis_result ds f = Ok h.
Proof. intros Hf. unfold load_numpy_analysis_result. by rewrite Hf. Qed.

Lemma load_missing (ds : DataSet) (f : Z) :
  numpy_results ds !! f = None ->
  load_numpy_analysis_result ds f = Raise (HistogramNotFound f).
Proof. intros Hf. unfold load_numpy_analysis_result. by rewrite Hf. Qed.

(** The accumulation loop of lines 29-30 when every fragment is
    persisted with the same shape. *)
Lemma accumulate_all (ds : DataSet) (sh : nat * nat) (fovs : list Z)
    (hs : list (image Z)) (acc : image Z) :
  Forall2 (fun f h => numpy_results ds !! f = Some h) fovs hs ->
  Forall (has_shape sh) hs ->
  has_shape sh acc ->
  foldM (fun pixelHistogram f =>
           h ← load_numpy_analysis_result ds f;
           np_iadd pixelHistogram h) acc fovs
  = Ok (foldl elementwise_add acc hs).
Proof.
  intros Hall. revert acc.
  induction Hall as [|f h fovs hs Hf _ IH]; intros acc Hhs Hacc; [done|].
  inversion Hhs; subst. simpl.
  rewrite (load_persisted _ _ _ Hf). simpl.
  rewrite (np_iadd_same_shape sh) by done. simpl.
  apply IH; [done|]. by apply has_shape_add.
Qed.

Lemma has_shape_foldl (sh : nat * nat) (hs : list (image Z)) (acc : image Z) :
  Forall (has_shape sh) hs -> has_shape sh acc ->
  has_shape sh (foldl elementwise_add acc hs).
Proof.
  intros Hhs. revert acc.
  induction Hhs as [|h hs Hh _ IH]; intros acc Hacc; [done|].
  simpl. apply IH. by apply has_shape_add.
Qed.

Lemma elementwise_add_swap (acc a b : image Z) :
  elementwise_add (elementwise_add acc a) b
  = elementwise_add (elementwise_add acc b) a.
Proof.
  unfold elementwise_add. revert a b.
  induction acc as [|r acc IH]; intros [|ra a] [|rb b]; try done.
  simpl. f_equal; [|apply IH].
  clear. revert ra rb.
  induction r as [|x r IH]; intros [|y ra] [|z rb]; try done.
  simpl. f_equal; [lia|apply IH].
Qed.

Lemma foldl_add_permutation (hs hs' : list (image Z)) (acc : image Z) :
  hs ≡ₚ hs' ->
  foldl elementwise_add acc hs = foldl elementwise_add acc hs'.
Proof.
  intros Hperm. revert acc.
  induction Hperm as [|h hs hs' _ IH|h1 h2 hs|hs1 hs2 hs3 _ IH1 _ IH2];
    intros acc; simpl.
  - done.
  - apply IH.
  - by rewrite elementwise_add_swap.
  - by rewrite IH1, IH2.
Qed.

Lemma entry_add (sh : nat * nat) (a b : image Z) (i j : nat) :
  has_shape sh a -> has_shape sh b ->
  entry (elementwise_add a b) i j = entry a i j + entry b i j.
Proof.
  intros [Ha Hra] [Hb Hrb]. unfold entry, elementwise_add.
  rewrite lookup_zip_with.
  destruct (a !! i) as [ra|] eqn:Hai; simpl.
  - destruct (b !! i) as [rb|] eqn:Hbi; simpl.
    + rewrite lookup_zip_with.
      assert (length ra = length rb) as Hlen.
      { rewrite Forall_forall in Hra, Hrb.
        rewrite (Hra ra), (Hrb rb); eauto using list_elem_of_lookup_2. }
      destruct (ra !! j) as [x|] eqn:Hx; simpl.
      * destruct (rb !! j) as [y|] eqn:Hy; [done|].
        apply lookup_lt_Some in Hx. apply lookup_ge_None in Hy. lia.
      * destruct (rb !! j) as [y|] eqn:Hy; [|done].
        apply lookup_lt_Some in Hy. apply lookup_ge_None in Hx. lia.
    + apply lookup_lt_Some in Hai. apply lookup_ge_None in Hbi. lia.
  - destruct (b !! i) as [rb|] eqn:Hbi; simpl; [|done].
    apply lookup_lt_Some in Hbi. apply lookup_ge_None in Hai. lia.
Qed.

Lemma entry_foldl (sh : nat * nat) (hs : list (image Z)) (acc : image Z)
    (i j : nat) :
  Forall (has_shape sh) hs -> has_shape sh acc ->
  entry (foldl elementwise_add acc hs) i j
  = entry acc i j + sum_Z ((fun h => entry h i j) <$> hs).
Proof.
  intros Hhs. revert acc.
  induction Hhs as [|h hs Hh _ IH]; intros acc Hacc; [simpl; lia|].
  cbn [foldl]. rewrite fmap_cons.
  rewrite IH by by apply has_shape_add.
  rewrite (entry_add sh) by done. unfold sum_Z. cbn [foldr]. lia.
Qed.

(** The aggregate when every fragment is persisted with one shape: the
    zero accumulator plus every histogram is the first histogram plus
    every other one. *)
Lemma aggregate_all (ds : DataSet) (sh : nat * nat) (h1 : image Z)
    (hs : list (image Z)) :
  Forall2 (fun f h => numpy_results ds !! f = Some h) (get_fovs ds)
          (h1 :: hs) ->
  Forall (has_shape sh) (h1 :: hs) ->
  get_pixel_histogram ds None = Ok (foldl elementwise_add h1 hs).
Proof.
  intros Hall Hhs. unfold get_pixel_histogram.
  destruct (get_fovs ds) as [|f fovs] eqn:Hfovs; [inversion Hall|].
  simpl. inversion Hall as [|? ? ? ? Hf Hrest]; subst.
  rewrite !(load_persisted _ _ _ Hf). simpl.
  inversion Hhs as [|? ? Hh1 Hhs']; subst.
  pose proof (has_shape_zeros _ _ Hh1) as Hz.
  rewrite (np_iadd_same_shape sh) by done. simpl.
  rewrite (accumulate_all ds sh fovs hs); [|done|done|].
  - f_equal. f_equal. destruct h1 as [|row h1]; [done|].
    rewrite (shape_has_shape _ sh Hh1) by done. by apply zeros_add.
  - by apply has_shape_add.
Qed.

Lemma persisted_fmap (ds : DataSet) (fovs : list Z) (hs : list (image Z)) :
  Forall2 (fun f h => numpy_results ds !! f = Some h) fovs hs ->
  hs = (fun f => default [] (numpy_results ds !! f)) <$> fovs.
Proof.
  induction 1 as [|f h fovs hs Hf _ IH]; [done|].
  rewrite fmap_cons, <- IH, Hf. done.
Qed.

Lemma fmap_persisted (ds : DataSet) (fovs : list Z) :
  Forall (fun f => is_Some (numpy_results ds !! f)) fovs ->
  Forall2 (fun f h => numpy_results ds !! f = Some h) fovs
          ((fun f => default [] (numpy_results ds !! f)) <$> fovs).
Proof.
  induction 1 as [|f fovs [h Hf] _ IH]; [constructor|].
  rewrite fmap_cons. constructor; [by rewrite Hf|exact IH].
Qed.

Lemma persisted_is_Some (ds : DataSet) (fovs : list Z)
    (hs : list (image Z)) :
  Forall2 (fun f h => numpy_results ds !! f = Some h) fovs hs ->
  Forall (fun f => is_Some (numpy_results ds !! f)) fovs.
Proof. induction 1; constructor; eauto. Qed.

Lemma foldl_from_zeros (sh : nat * nat) (h1 : image Z)
    (hs : list (image Z)) :
  has_shape sh h1 ->
  foldl elementwise_add h1 hs
  = foldl elementwise_add (np_zeros sh) (h1 :: hs).
Proof. intros Hh1. simpl. by rewrite zeros_add. Qed.

Lemma np_zeros_has_shape (sh : nat * nat) : has_shape sh (np_zeros sh).
Proof.
  unfold np_zeros. split; [by rewrite length_replicate|].
  apply Forall_replicate. by rewrite length_replicate.
Qed.

Lemma entry_zeros (sh : nat * nat) (i j : nat) : entry (np_zeros sh) i j = 0.
Proof.
  unfold entry, np_zeros.
  destruct (replicate (fst sh) _ !! i) as [row|] eqn:Hrow; [|done].
  apply lookup_replicate in Hrow as [-> _]. simpl.
  destruct (replicate (snd sh) 0 !! j) as [x|] eqn:Hx; [|done].
  by apply lookup_replicate in Hx as [-> _].
Qed.

(** C7: when the N fragments of the data set are persisted with
    histograms H1..HN of one shape, the aggregate is their element-wise
    sum, every histogram counted once, and it does not depend on the
    order in which the fragments are enumerated. *)
Theorem aggregate_is_elementwise_sum (ds : DataSet) (sh : nat * nat)
    (hs : list (image Z)) :
  hs <> [] ->
  Forall2 (fun f h => numpy_results ds !! f = Some h) (get_fovs ds) hs ->
  Forall (has_shape sh) hs ->
  exists agg,
    get_pixel_histogram ds None = Ok agg /\
    elementwise_sum hs = Some agg /\
    has_shape sh agg /\
    (forall i j, entry agg i j = sum_Z ((fun h => entry h i j) <$> hs)) /\
    (forall fovs', fovs' ≡ₚ get_fovs ds ->
       get_pixel_histogram (with_fovs ds fovs') None = Ok agg).
Proof.
  intros Hne Hall Hhs. destruct hs as [|h1 hs]; [done|].
  inversion Hhs as [|? ? Hh1 Hhs']; subst.
  exists (foldl elementwise_add h1 hs).
  split; [by apply (aggregate_all ds sh)|].
  split; [done|].
  split; [by apply has_shape_foldl|].
  split.
  { intros i j. rewrite (foldl_from_zeros sh) by done.
    rewrite (entry_foldl sh) by (done || apply np_zeros_has_shape).
    rewrite entry_zeros. lia. }
  intros fovs' Hperm.
  set (g := fun f => default [] (numpy_results ds !! f)).
  pose proof (persisted_fmap _ _ _ Hall) as Hhs_eq. fold g in Hhs_eq.
  assert (Hall' : Forall2 (fun f h => numpy_results ds !! f = Some h)
                          fovs' (g <$> fovs')).
  { apply (fmap_persisted ds). rewrite Hperm.
    by apply persisted_is_Some in Hall. }
  assert (Hperm' : g <$> fovs' ≡ₚ h1 :: hs).
  { rewrite Hhs_eq. by apply fmap_Permutation. }
  assert (Hhs'' : Forall (has_shape sh) (g <$> fovs')).
  { by rewrite Hperm'. }
  destruct (g <$> fovs') as [|h1' hs'] eqn:Hg.
  { by apply Permutation_nil_cons in Hperm'. }
  rewrite (aggregate_all (with_fovs ds fovs') sh h1' hs'); [|done|done].
  f_equal.
  inversion Hhs'' as [|? ? Hh1' _]; subst.
  rewrite (foldl_from_zeros sh h1'), (foldl_from_zeros sh h1) by done.
  by apply foldl_add_permutation.
Qed.

Lemma aggregate_is_elementwise_sum_example :
  get_pixel_histogram
    (Fixture.data_set [0; 1; 2] ["bit1"] [[0]]
       {[ 0 := [[1; 2]; [3; 4]];
          1 := [[10; 20]; [30; 40]];
          2 := [[100; 200]; [300; 400]] ]})
    None
  = Ok [[111; 222]; [333; 444]].
Proof.
  destruct (aggregate_is_elementwise_sum
              (Fixture.data_set [0; 1; 2] ["bit1"] [[0]]
                 {[ 0 := [[1; 2]; [3; 4]];
                    1 := [[10; 20]; [30; 40]];
                    2 := [[100; 200]; [300; 400]] ]})
              (2%nat, 2%nat)
              [ [[1; 2]; [3; 4]]; [[10; 20]; [30; 40]];
                [[100; 200]; [300; 400]] ])
    as (agg & Hagg & Hsum & _).
  - discriminate.
  - repeat constructor.
  - repeat constructor.
  - rewrite Hagg. f_equal. by inversion Hsum.
Defined.

(** C10: with no fragment in the data set the aggregate request fails on
    the index into the empty fragment list, before any histogram is
    looked up. *)
Theorem aggregate_of_no_fragment (ds : DataSet) :
  get_fovs ds = [] ->
  get_pixel_histogram ds None = Raise IndexError /\
  (forall agg, get_pixel_histogram ds None <> Ok agg) /\
  (forall f, get_pixel_histogram ds None <> Raise (HistogramNotFound f)).
Proof.
  intros Hfovs. unfold get_pixel_histogram. rewrite Hfovs. simpl.
  repeat split; intros; discriminate.
Qed.

Lemma aggregate_of_no_fragment_example :
  get_pixel_histogram (Fixture.data_set [] ["bit1"] [[0]] ∅) None
  = Raise IndexError.
Proof.
  apply (aggregate_of_no_fragment (Fixture.data_set [] ["bit1"] [[0]] ∅)).
  reflexivity.
Defined.

(** The accumulation loop returns only if every fragment it visits is
    persisted. *)
Lemma accumulate_Ok_persisted (ds : DataSet) (fovs : list Z)
    (acc agg : image Z) :
  foldM (fun pixelHistogram f =>
           h ← load_numpy_analysis_result ds f;
           np_iadd pixelHistogram h) acc fovs = Ok agg ->
  Forall (fun f => is_Some (numpy_results ds !! f)) fovs.
Proof.
  revert acc. induction fovs as [|f fovs IH]; intros acc Hfold;
    [constructor|].
  simpl in Hfold.
  destruct (numpy_results ds !! f) as [h|] eqn:Hf.
  - rewrite (load_persisted _ _ _ Hf) in Hfold. simpl in Hfold.
    destruct (np_iadd acc h) as [acc'|e]; [|discriminate].
    constructor; [by eexists|]. by apply (IH acc').
  - rewrite (load_missing _ _ Hf) in Hfold. discriminate.
Qed.

(** With histograms of one shape, the loop stops at the first fragment
    that is not persisted. *)
Lemma accumulate_missing (ds : DataSet) (sh : nat * nat) (fovs : list Z)
    (acc : image Z) (f : Z) :
  f ∈ fovs ->
  numpy_results ds !! f = None ->
  (forall f' h, f' ∈ fovs -> numpy_results ds !! f' = Some h ->
                has_shape sh h) ->
  has_shape sh acc ->
  exists f', f' ∈ fovs /\ numpy_results ds !! f' = None /\
    foldM (fun pixelHistogram f =>
             h ← load_numpy_analysis_result ds f;
             np_iadd pixelHistogram h) acc fovs
    = Raise (HistogramNotFound f').
Proof.
  revert acc. induction fovs as [|f0 fovs IH]; intros acc Hin Hf Hsh Hacc.
  { by apply elem_of_nil in Hin. }
  simpl. destruct (numpy_results ds !! f0) as [h|] eqn:Hf0.
  - rewrite (load_persisted _ _ _ Hf0). simpl.
    assert (has_shape sh h) as Hh by (eapply Hsh; [left|done]).
    rewrite (np_iadd_same_shape sh) by done. simpl.
    destruct (IH (elementwise_add acc h)) as (f' & Hin' & Hf' & Hfold).
    + apply elem_of_cons in Hin as [->|Hin]; [congruence|done].
    + done.
    + intros f' h' Hin'. apply Hsh. by right.
    + by apply has_shape_add.
    + exists f'. split; [by right|]. done.
  - rewrite (load_missing _ _ Hf0). simpl.
    exists f0. split; [left|]. done.
Qed.

Lemma aggregate_unfold (ds : DataSet) (f0 : Z) (fovs : list Z) :
  get_fovs ds = f0 :: fovs ->
  get_pixel_histogram ds None =
    match numpy_results ds !! f0 with
    | Some h0 =>
        foldM (fun pixelHistogram f =>
                 h ← load_numpy_analysis_result ds f;
                 np_iadd pixelHistogram h)
              (np_zeros (shape h0)) (f0 :: fovs)
    | None => Raise (HistogramNotFound f0)
    end.
Proof.
  intros Hfovs. unfold get_pixel_histogram. rewrite Hfovs.
  destruct (numpy_results ds !! f0) as [h0|] eqn:Hf0.
  - cbn [first_item mbind result_bind].
    by rewrite (load_persisted _ _ _ Hf0).
  - cbn [first_item mbind result_bind].
    by rewrite (load_missing _ _ Hf0).
Qed.

(** C8: the histogram of a fragment that is not persisted cannot be read:
    the request for that fragment fails with HistogramNotFound, and an
    aggregate over a fragment list that contains it never returns a
    histogram; it fails with HistogramNotFound for a missing fragment
    when the persisted histograms have one shape. *)
Theorem missing_histogram_raises (ds : DataSet) (f : Z) :
  numpy_results ds !! f = None ->
  get_pixel_histogram ds (Some f) = Raise (HistogramNotFound f) /\
  (f ∈ get_fovs ds ->
   (forall agg, get_pixel_histogram ds None <> Ok agg) /\
   (forall sh,
      (forall f' h, f' ∈ get_fovs ds -> numpy_results ds !! f' = Some h ->
                    has_shape sh h) ->
      exists f', f' ∈ get_fovs ds /\ numpy_results ds !! f' = None /\
        get_pixel_histogram ds None = Raise (HistogramNotFound f'))).
Proof.
  intros Hf. split; [by apply load_missing|].
  intros Hin.
  destruct (get_fovs ds) as [|f0 fovs] eqn:Hfovs.
  { by apply elem_of_nil in Hin. }
  rewrite (aggregate_unfold ds f0 fovs Hfovs).
  destruct (numpy_results ds !! f0) as [h0|] eqn:Hf0.
  - split.
    + intros agg Hagg.
      apply accumulate_Ok_persisted in Hagg.
      rewrite Forall_forall in Hagg. destruct (Hagg f Hin). congruence.
    + intros sh Hsh.
      apply (accumulate_missing ds sh (f0 :: fovs) _ f Hin Hf Hsh).
      apply has_shape_zeros. eapply Hsh; [left|done].
  - split; [intros; discriminate|].
    intros sh _. exists f0. split; [left|]. done.
Qed.

Lemma missing_histogram_raises_example :
  get_pixel_histogram
    (Fixture.data_set [0; 1] ["bit1"] [[0]] {[ 0 := [[1; 2]] ]}) (Some 1)
  = Raise (HistogramNotFound 1) /\
  get_pixel_histogram
    (Fixture.data_set [0; 1] ["bit1"] [[0]] {[ 0 := [[1; 2]] ]}) None
  = Raise (HistogramNotFound 1).
Proof.
  destruct (missing_histogram_raises
              (Fixture.data_set [0; 1] ["bit1"] [[0]] {[ 0 := [[1; 2]] ]}) 1)
    as [Hsingle Haggregate].
  - reflexivity.
  - split; [exact Hsingle|].
    destruct Haggregate as [_ Hraise].
    + simpl. right. left.
    + destruct (Hraise (1%nat, 2%nat)) as (f' & Hin & Hmissing & Hagg).
      * intros f' h Hin Hf'. simpl in Hin, Hf'.
        apply elem_of_cons in Hin as [->|Hin].
        -- injection Hf' as <-. repeat constructor.
        -- apply elem_of_cons in Hin as [->|Hin]; [discriminate|].
           by apply elem_of_nil in Hin.
      * simpl in Hin, Hmissing.
        apply elem_of_cons in Hin as [->|Hin]; [discriminate|].
        apply elem_of_cons in Hin as [->|Hin]; [exact Hagg|].
        by apply elem_of_nil in Hin.
Defined.

(** ** The pixel histogram of a fragment *)

Lemma arange_from_length (start step : Z) (n : nat) :
  length (arange_from start step n) = n.
Proof.
  revert start. induction n as [|n IH]; intros start; [done|].
  simpl. by rewrite IH.
Qed.

Lemma histogramBins_length :
  Z.of_nat (length histogramBins) = uint16_max.
Proof.
  unfold histogramBins, np_arange. rewrite arange_from_length.
  unfold uint16_max. rewrite Z.div_1_r. lia.
Qed.

Lemma bin_counts_length (edges samples : list Z) :
  length (bin_counts edges samples) = (length edges - 1)%nat.
Proof.
  induction edges as [|lo [|hi [|e edges]] IH]; try done.
  change (bin_counts (lo :: hi :: e :: edges) samples)
    with (count_where (fun v => (lo <=? v) && (v <? hi)) samples
            :: bin_counts (hi :: e :: edges) samples).
  cbn [length] in *. rewrite IH. lia.
Qed.

Lemma count_where_ext (p q : Z -> bool) (l : list Z) :
  (forall v, p v = q v) -> count_where p l = count_where q l.
Proof.
  intros Hpq. induction l as [|v l IH]; [done|].
  simpl. by rewrite Hpq, IH.
Qed.

Lemma count_where_split (p q r : Z -> bool) (l : list Z) :
  (forall v, (if p v then 1 else 0) + (if q v then 1 else 0)
             = (if r v then 1 else 0)) ->
  count_where p l + count_where q l = count_where r l.
Proof.
  intros Hpqr. induction l as [|v l IH]; [done|].
  simpl. specialize (Hpqr v). lia.
Qed.

Lemma count_where_bounds (p : Z -> bool) (l : list Z) :
  0 <= count_where p l <= Z.of_nat (length l).
Proof.
  induction l as [|v l IH]; simpl; [lia|].
  destruct (p v); lia.
Qed.

(** Unit-width bins over consecutive integer edges [s, s+1, ..., s+m+1]:
    the counts add up to the number of samples between the first and the
    last edge, both included. *)
Lemma bin_counts_consecutive_sum (s : Z) (m : nat) (samples : list Z) :
  sum_Z (bin_counts (arange_from s 1 (S (S m))) samples)
  = count_where (fun v => (s <=? v) && (v <=? s + Z.of_nat m + 1)) samples.
Proof.
  revert s. induction m as [|m IH]; intros s.
  - simpl. rewrite !Z.add_0_r. done.
  - change (arange_from s 1 (S (S (S m))))
      with (s :: (s + 1) :: (s + 1 + 1) :: arange_from (s + 1 + 1 + 1) 1 m).
    change (bin_counts
              (s :: (s + 1) :: (s + 1 + 1)
                 :: arange_from (s + 1 + 1 + 1) 1 m) samples)
      with (count_where (fun v => (s <=? v) && (v <? s + 1)) samples
            :: bin_counts (arange_from (s + 1) 1 (S (S m))) samples).
    unfold sum_Z. cbn [foldr].
    fold (sum_Z (bin_counts (arange_from (s + 1) 1 (S (S m))) samples)).
    rewrite IH. apply count_where_split. intros v.
    destruct (Z.leb_spec s v), (Z.ltb_spec v (s + 1)),
      (Z.leb_spec (s + 1) v),
      (Z.leb_spec v (s + 1 + Z.of_nat m + 1)),
      (Z.leb_spec v (s + Z.of_nat (S m) + 1)); simpl; lia.
Qed.

(** The counts of one image add up to the number of its pixels that are
    at most 65534. *)
Lemma np_histogram_sum (a : image Z) :
  sum_Z (np_histogram a histogramBins) = count_where binned (concat a).
Proof.
  unfold np_histogram, histogramBins, np_arange.
  replace (Z.to_nat ((uint16_max - 0 + 1 - 1) / 1))
    with (S (S (Z.to_nat (uint16_max - 2))))
    by (rewrite Z.div_1_r; unfold uint16_max; lia).
  rewrite bin_counts_consecutive_sum. apply count_where_ext. intros v.
  unfold binned.
  replace (0 + Z.of_nat (Z.to_nat (uint16_max - 2)) + 1)
    with (uint16_max - 1) by (unfold uint16_max; lia).
  done.
Qed.

Lemma np_histogram_length (a : image Z) :
  Z.of_nat (length (np_histogram a histogramBins)) = uint16_max - 1.
Proof.
  unfold np_histogram. rewrite bin_counts_length.
  pose proof histogramBins_length. unfold uint16_max in *. lia.
Qed.

Section FragmentHistogram.
Context `{ImageOps}.

Lemma sum_Z_zip_add (a b : list Z) :
  length a = length b ->
  sum_Z (zip_with Z.add a b) = sum_Z a + sum_Z b.
Proof.
  revert b. induction a as [|x a IH]; intros [|y b] Hlen; try done.
  simpl in *. rewrite IH by lia. lia.
Qed.

Lemma row_iadd_histogram (h : image Z) (bi : nat) (row : list Z)
    (img : image Z) :
  h !! bi = Some row ->
  histogram_row row ->
  row_iadd h bi (np_histogram img histogramBins)
  = Ok (<[bi := zip_with Z.add row (np_histogram img histogramBins)]> h) /\
  histogram_row (zip_with Z.add row (np_histogram img histogramBins)) /\
  sum_Z (zip_with Z.add row (np_histogram img histogramBins))
  = sum_Z row + count_where binned (concat img).
Proof.
  intros Hrow Hlen. unfold histogram_row in *.
  pose proof (np_histogram_length img) as Hcounts.
  assert (length (np_histogram img histogramBins) = length row) as Heq
    by lia.
  split; [|split].
  - unfold row_iadd. rewrite Hrow. by rewrite decide_True.
  - rewrite length_zip_with. lia.
  - rewrite sum_Z_zip_add by done. by rewrite np_histogram_sum.
Qed.

Lemma accumulate_slice_restored (self : DeconvolutionPreprocess)
    (task : WarpTask) (f ch : Z) (bi : nat) (h : image Z) (i : nat)
    (r : image Z) :
  restore_slice self task f ch i = Ok r ->
  accumulate_slice self task f ch bi h i
  = row_iadd h bi (np_histogram r histogramBins).
Proof.
  unfold restore_slice, accumulate_slice.
  destruct (get_aligned_image task f ch i) as [aligned|e]; [|discriminate].
  simpl. by intros ->.
Qed.

(** The inner loop, lines 150-156: the row of the bit gains the binned
    pixels of every slice, nothing else changes. *)
Lemma accumulate_slices (self : DeconvolutionPreprocess) (task : WarpTask)
    (f ch : Z) (bi : nat) (restored : nat -> image Z) (slices : list nat)
    (h : image Z) (row : list Z) :
  h !! bi = Some row ->
  histogram_row row ->
  (forall i, i ∈ slices -> restore_slice self task f ch i = Ok (restored i)) ->
  exists row',
    foldM (accumulate_slice self task f ch bi) h slices
    = Ok (<[bi := row']> h) /\
    histogram_row row' /\
    sum_Z row' = sum_Z row + binned_pixels (restored <$> slices).
Proof.
  revert h row. induction slices as [|i slices IH]; intros h row Hrow Hlen Hres.
  - exists row. simpl. rewrite list_insert_id by done.
    unfold binned_pixels, sum_Z. simpl. split; [done|]. split; [done|lia].
  - cbn [foldM].
    rewrite (accumulate_slice_restored _ _ _ _ _ _ _ (restored i))
      by (apply Hres; left).
    destruct (row_iadd_histogram h bi row (restored i) Hrow Hlen)
      as (-> & Hlen' & Hsum').
    cbn [mbind result_bind].
    destruct (IH (<[bi := zip_with Z.add row
                           (np_histogram (restored i) histogramBins)]> h)
                 (zip_with Z.add row
                    (np_histogram (restored i) histogramBins)))
      as (row' & -> & Hlen'' & Hsum'').
    + apply list_lookup_insert_eq. by eapply lookup_lt_Some.
    + done.
    + intros j Hj. apply Hres. by right.
    + exists row'. rewrite list_insert_insert_eq. split; [done|].
      split; [done|]. rewrite Hsum'', Hsum'.
      unfold binned_pixels, sum_Z. rewrite !fmap_cons. cbn [foldr]. lia.
Qed.

Lemma accumulate_bit_channel (self : DeconvolutionPreprocess)
    (task : WarpTask) (f : Z) (h : image Z) (bi : nat) (b : string) (ch : Z) :
  get_data_channel_for_bit (dataSet self) b = Ok ch ->
  accumulate_bit self task f h (bi, b)
  = foldM (accumulate_slice self task f ch bi) h
          (seq 0 (length (get_z_positions (dataSet self)))).
Proof. intros Hch. unfold accumulate_bit. simpl. by rewrite Hch. Qed.

(** The outer loop, lines 147-156: every bit of the list gains the binned
    pixels of its restored slices in its own row. *)
Lemma accumulate_bits (self : DeconvolutionPreprocess) (task : WarpTask)
    (f : Z) (chan : string -> Z) (restored : string -> nat -> image Z)
    (entries : list (nat * string)) (h : image Z) :
  let slices := seq 0 (length (get_z_positions (dataSet self))) in
  NoDup (fst <$> entries) ->
  Forall histogram_row h ->
  (forall bi b, (bi, b) ∈ entries -> (bi < length h)%nat) ->
  (forall bi b, (bi, b) ∈ entries ->
     get_data_channel_for_bit (dataSet self) b = Ok (chan b)) ->
  (forall bi b i, (bi, b) ∈ entries -> i ∈ slices ->
     restore_slice self task f (chan b) i = Ok (restored b i)) ->
  exists h',
    foldM (accumulate_bit self task f) h entries = Ok h' /\
    length h' = length h /\
    Forall histogram_row h' /\
    (forall bi, bi ∉ fst <$> entries -> h' !! bi = h !! bi) /\
    (forall bi b, (bi, b) ∈ entries ->
       exists row row',
         h !! bi = Some row /\ h' !! bi = Some row' /\
         sum_Z row' = sum_Z row + binned_pixels (restored b <$> slices)).
Proof.
  intros slices. revert h.
  induction entries as [|[bi0 b0] entries IH];
    intros h Hnodup Hrows Hbound Hchan Hres.
  { exists h. split; [done|]. split; [done|]. split; [done|].
    split; [done|]. intros bi b Hin. by apply elem_of_nil in Hin. }
  rewrite fmap_cons in Hnodup. apply NoDup_cons in Hnodup as [Hfresh Hnodup].
  simpl in Hfresh.
  destruct (lookup_lt_is_Some_2 h bi0) as [row Hrow].
  { apply (Hbound bi0 b0). left. }
  assert (histogram_row row) as Hlen.
  { rewrite Forall_forall in Hrows. apply Hrows.
    by eapply list_elem_of_lookup_2. }
  destruct (accumulate_slices self task f (chan b0) bi0 (restored b0)
              slices h row Hrow Hlen) as (row' & Hinner & Hlen' & Hsum').
  { intros i Hi. apply (Hres bi0 b0); [left|done]. }
  destruct (IH (<[bi0 := row']> h)) as (h' & Hfold & Hlength & Hrows' &
                                         Hother & Hsums).
  - done.
  - by apply Forall_insert.
  - intros bi b Hin. rewrite length_insert. apply (Hbound bi b). by right.
  - intros bi b Hin. apply (Hchan bi b). by right.
  - intros bi b i Hin. apply (Hres bi b i). by right.
  - exists h'. split.
    { cbn [foldM].
      rewrite (accumulate_bit_channel _ _ _ _ _ _ (chan b0))
        by (apply (Hchan bi0 b0); left).
      fold slices. rewrite Hinner. exact Hfold. }
    split. { by rewrite Hlength, length_insert. }
    split; [done|].
    split.
    { intros bi Hbi. rewrite fmap_cons in Hbi.
      apply not_elem_of_cons in Hbi as [Hne Hbi]. simpl in Hne.
      rewrite Hother by done. by apply list_lookup_insert_ne. }
    intros bi b Hin. apply elem_of_cons in Hin as [Heq|Hin].
    + injection Heq as -> ->. exists row, row'.
      split; [done|]. split; [|done].
      rewrite Hother by done. apply list_lookup_insert_eq.
      by eapply lookup_lt_Some.
    + destruct (Hsums bi b Hin) as (row1 & row1' & Hrow1 & Hrow1' & Hsum1).
      assert (bi0 <> bi) as Hne.
      { intros ->. apply Hfresh.
        apply list_elem_of_fmap. exists (bi, b). done. }
      exists row1, row1'. split; [|done].
      by rewrite list_lookup_insert_ne in Hrow1.
Qed.

Lemma enumerate_fst {A} (l : list A) : fst <$> enumerate l = seq 0 (length l).
Proof. unfold enumerate. apply fst_zip. by rewrite length_seq. Qed.

Lemma elem_of_enumerate {A} (l : list A) (i : nat) (x : A) :
  (i, x) ∈ enumerate l <-> l !! i = Some x.
Proof.
  unfold enumerate. rewrite list_elem_of_lookup. split.
  - intros [k Hk]. apply lookup_zip_with_Some in Hk
      as (i' & x' & Heq & Hi & Hx).
    injection Heq as -> ->. apply lookup_seq in Hi as [-> _]. done.
  - intros Hx. exists i. apply lookup_zip_with_Some. exists i, x.
    split; [done|]. split; [|done].
    apply lookup_seq. split; [done|]. by eapply lookup_lt_Some.
Qed.

Lemma sum_Z_zeros (n : nat) : sum_Z (replicate n 0) = 0.
Proof. induction n as [|n IH]; [done|]. simpl. by rewrite IH. Qed.

(** What [_run_analysis] builds and saves when every collaborator
    answers: an array with one row per bit of the codebook and 65534
    counts per row, in which the row of a bit sums to the number of
    pixels of its restored slices that are at most 65534. *)
Lemma run_analysis_rows (self : DeconvolutionPreprocess) (f : Z)
    (name : pyval) (task : WarpTask) (cb : Codebook) (chan : string -> Z)
    (restored : string -> nat -> image Z) :
  let slices := seq 0 (length (get_z_positions (dataSet self))) in
  getitem (parameters self) "warp_task" = Ok name ->
  load_analysis_task (dataSet self) name = Ok task ->
  task_codebook self = Ok cb ->
  (length (get_bit_names cb) <= get_bit_count cb)%nat ->
  (forall b, b ∈ get_bit_names cb ->
     get_data_channel_for_bit (dataSet self) b = Ok (chan b)) ->
  (forall b i, b ∈ get_bit_names cb -> i ∈ slices ->
     restore_slice self task f (chan b) i = Ok (restored b i)) ->
  exists h ds',
    fragment_histogram self f = Ok h /\
    _run_analysis self f = Ok ds' /\
    numpy_results ds' !! f = Some h /\
    length h = get_bit_count cb /\
    Forall histogram_row h /\
    (forall bi b, get_bit_names cb !! bi = Some b ->
       exists row,
         h !! bi = Some row /\
         sum_Z row = binned_pixels (restored b <$> slices)).
Proof.
  intros slices Hname Htask Hcb Hcount Hchan Hres.
  set (h0 := np_zeros (get_bit_count cb, (length histogramBins - 1)%nat)).
  assert (Hrows0 : Forall histogram_row h0).
  { apply Forall_replicate. unfold histogram_row. cbn [snd].
    rewrite length_replicate.
    pose proof histogramBins_length. unfold uint16_max in *. lia. }
  assert (Hlen0 : length h0 = get_bit_count cb).
  { unfold h0, np_zeros. by rewrite length_replicate. }
  destruct (accumulate_bits self task f chan restored
              (enumerate (get_bit_names cb)) h0)
    as (h & Hfold & Hlen & Hrows & _ & Hsums).
  - rewrite enumerate_fst. apply NoDup_seq.
  - done.
  - intros bi b Hin. apply elem_of_enumerate, lookup_lt_Some in Hin. lia.
  - intros bi b Hin. apply Hchan.
    apply elem_of_enumerate in Hin. by eapply list_elem_of_lookup_2.
  - intros bi b i Hin. apply Hres.
    apply elem_of_enumerate in Hin. by eapply list_elem_of_lookup_2.
  - assert (Hfrag : fragment_histogram self f = Ok h).
    { unfold fragment_histogram. rewrite Hname. cbn [mbind result_bind].
      rewrite Htask. cbn [mbind result_bind]. rewrite Hcb.
      cbn [mbind result_bind]. exact Hfold. }
    exists h, (_save_pixel_histogram (dataSet self) h f).
    split; [done|].
    split. { unfold _run_analysis. by rewrite Hfrag. }
    split. { simpl. apply lookup_insert_eq. }
    split; [congruence|]. split; [done|].
    intros bi b Hb. apply elem_of_enumerate in Hb.
    destruct (Hsums bi b Hb) as (row & row' & Hrow & Hrow' & Hsum).
    exists row'. split; [done|]. rewrite Hsum.
    apply lookup_replicate in Hrow as [-> _].
    by rewrite sum_Z_zeros.
Qed.

End FragmentHistogram.

Lemma count_where_all (p : Z -> bool) (l : list Z) :
  Forall (fun v => p v = true) l -> count_where p l = Z.of_nat (length l).
Proof.
  induction 1 as [|v l Hv _ IH]; [done|].
  cbn [count_where length]. rewrite Hv, IH. lia.
Qed.

Lemma count_where_missed (p : Z -> bool) (l : list Z) (v : Z) :
  v ∈ l -> p v = false -> count_where p l < Z.of_nat (length l).
Proof.
  intros Hin Hv. induction l as [|x l IH]; [by apply elem_of_nil in Hin|].
  cbn [count_where length].
  pose proof (count_where_bounds p l).
  apply elem_of_cons in Hin as [<-|Hin].
  - rewrite Hv. lia.
  - specialize (IH Hin). destruct (p x); lia.
Qed.

(** A saturated pixel has no bin: images that contain one have fewer
    binned pixels than pixels. *)
Lemma binned_pixels_saturated (imgs : list (image Z)) (img : image Z) :
  img ∈ imgs -> uint16_max ∈ concat img -> binned_pixels imgs < pixels imgs.
Proof.
  intros Himg Hsat. unfold binned_pixels, pixels.
  induction imgs as [|img' imgs IH]; [by apply elem_of_nil in Himg|].
  rewrite !fmap_cons. unfold sum_Z in *. cbn [foldr].
  assert (Hle : forall l : list (image Z),
            foldr Z.add 0 ((fun i => count_where binned (concat i)) <$> l)
            <= foldr Z.add 0 ((fun i => Z.of_nat (length (concat i))) <$> l)).
  { induction l as [|i l IHl]; [done|]. rewrite !fmap_cons. cbn [foldr].
    pose proof (count_where_bounds binned (concat i)). lia. }
  pose proof (count_where_bounds binned (concat img')).
  apply elem_of_cons in Himg as [<-|Himg].
  - pose proof (count_where_missed binned (concat img) uint16_max Hsat
                  eq_refl).
    specialize (Hle imgs). lia.
  - specialize (IH Himg). lia.
Qed.

Lemma preprocess_image_range `{ImageOps} (self : DeconvolutionPreprocess)
    (img restored : image Z) :
  _preprocess_image self img = Ok restored ->
  Forall (Forall (fun v => 0 <= v <= uint16_max)) restored.
Proof.
  unfold _preprocess_image. intros Hrun.
  destruct (filter_size _) as [k|e]; [|discriminate]. simpl in Hrun.
  destruct (getitem _ _) as [size|e]; [|discriminate]. simpl in Hrun.
  destruct (background_suppress _ _ _) as [filtered|e]; [|discriminate].
  simpl in Hrun.
  destruct (deconvolve_lucyrichardson _ _ _ _) as [d|e]; [|discriminate].
  injection Hrun as <-. apply img_map_Forall, uint16_of_float_range.
Qed.

Lemma restore_slice_range `{ImageOps} (self : DeconvolutionPreprocess)
    (task : WarpTask) (f ch : Z) (i : nat) (restored : image Z) :
  restore_slice self task f ch i = Ok restored ->
  Forall (fun v => 0 <= v <= uint16_max) (concat restored).
Proof.
  unfold restore_slice. intros Hrun.
  destruct (get_aligned_image _ _ _ _) as [aligned|e]; [|discriminate].
  apply preprocess_image_range in Hrun. by apply Forall_concat.
Qed.

Lemma pixels_uniform (n : Z) (imgs : list (image Z)) :
  Forall (fun img => Z.of_nat (length (concat img)) = n) imgs ->
  pixels imgs = n * Z.of_nat (length imgs).
Proof.
  unfold pixels. induction 1 as [|img imgs Himg _ IH]; [simpl; lia|].
  rewrite fmap_cons. unfold sum_Z in *. cbn [foldr length].
  rewrite IH, Himg. lia.
Qed.

Lemma binned_pixels_unsaturated (imgs : list (image Z)) :
  Forall (fun img => Forall (fun v => 0 <= v < uint16_max) (concat img))
         imgs ->
  binned_pixels imgs = pixels imgs.
Proof.
  unfold binned_pixels, pixels.
  induction 1 as [|img imgs Himg _ IH]; [done|].
  rewrite !fmap_cons. unfold sum_Z in *. cbn [foldr]. rewrite IH.
  f_equal. apply count_where_all.
  eapply Forall_impl; [exact Himg|]. intros v Hv. simpl in Hv.
  unfold binned, uint16_max in *.
  apply andb_true_iff. split; apply Z.leb_le; lia.
Qed.

(** C1, as the code has it: when the collaborators answer, the histogram
    that [_run_analysis] builds and persists for a fragment has one row
    per bit of the codebook and 65534 counts per row: the edges are the
    65535 integers from 0 to 65534, one count per pair of consecutive
    edges. *)
Theorem fragment_histogram_shape `{ImageOps}
    (self : DeconvolutionPreprocess) (f : Z) (name : pyval)
    (task : WarpTask) (cb : Codebook) (chan : string -> Z)
    (restored : string -> nat -> image Z) :
  getitem (parameters self) "warp_task" = Ok name ->
  load_analysis_task (dataSet self) name = Ok task ->
  task_codebook self = Ok cb ->
  (length (get_bit_names cb) <= get_bit_count cb)%nat ->
  (forall b, b ∈ get_bit_names cb ->
     get_data_channel_for_bit (dataSet self) b = Ok (chan b)) ->
  (forall b i, b ∈ get_bit_names cb ->
     i ∈ seq 0 (length (get_z_positions (dataSet self))) ->
     restore_slice self task f (chan b) i = Ok (restored b i)) ->
  exists h ds',
    fragment_histogram self f = Ok h /\
    _run_analysis self f = Ok ds' /\
    numpy_results ds' !! f = Some h /\
    length h = get_bit_count cb /\
    Forall (fun row => Z.of_nat (length row) = 65534) h /\
    Z.of_nat (length histogramBins) = 65535 /\
    head histogramBins = Some 0 /\
    last histogramBins = Some 65534.
Proof.
  intros Hname Htask Hcb Hcount Hchan Hres.
  destruct (run_analysis_rows self f name task cb chan restored
              Hname Htask Hcb Hcount Hchan Hres)
    as (h & ds' & Hfrag & Hrun & Hsaved & Hlen & Hrows & _).
  exists h, ds'.
  split; [done|]. split; [done|]. split; [done|]. split; [done|].
  split.
  { eapply Forall_impl; [exact Hrows|]. unfold histogram_row, uint16_max.
    intros row Hrow. simpl in Hrow. lia. }
  split; [apply histogramBins_length|].
  split; vm_compute; reflexivity.
Qed.

(** C4, as the code has it: when the collaborators answer, the row of a
    bit in the persisted histogram sums to the number of pixels of the
    restored slices of that bit whose value is at most 65534; when no
    restored pixel is saturated at 65535 and every restored slice has
    [width * height] pixels, this is [width * height] times the number of
    depth slices. *)
Theorem fragment_histogram_row_sums `{ImageOps}
    (self : DeconvolutionPreprocess) (f : Z) (name : pyval)
    (task : WarpTask) (cb : Codebook) (chan : string -> Z)
    (restored : string -> nat -> image Z) :
  let slices := seq 0 (length (get_z_positions (dataSet self))) in
  getitem (parameters self) "warp_task" = Ok name ->
  load_analysis_task (dataSet self) name = Ok task ->
  task_codebook self = Ok cb ->
  (length (get_bit_names cb) <= get_bit_count cb)%nat ->
  (forall b, b ∈ get_bit_names cb ->
     get_data_channel_for_bit (dataSet self) b = Ok (chan b)) ->
  (forall b i, b ∈ get_bit_names cb -> i ∈ slices ->
     restore_slice self task f (chan b) i = Ok (restored b i)) ->
  exists h ds',
    _run_analysis self f = Ok ds' /\
    numpy_results ds' !! f = Some h /\
    forall bi b, get_bit_names cb !! bi = Some b ->
      exists row,
        h !! bi = Some row /\
        sum_Z row = binned_pixels (restored b <$> slices) /\
        forall width height : Z,
          (forall i, i ∈ slices ->
             Z.of_nat (length (concat (restored b i))) = width * height /\
             65535 ∉ concat (restored b i)) ->
          sum_Z row = width * height * Z.of_nat (length slices).
Proof.
  intros slices Hname Htask Hcb Hcount Hchan Hres.
  destruct (run_analysis_rows self f name task cb chan restored
              Hname Htask Hcb Hcount Hchan Hres)
    as (h & ds' & _ & Hrun & Hsaved & _ & _ & Hsums).
  exists h, ds'. split; [done|]. split; [done|].
  intros bi b Hb. destruct (Hsums bi b Hb) as (row & Hrow & Hsum).
  exists row. split; [done|]. split; [done|].
  intros width height Hslices. rewrite Hsum. fold slices.
  rewrite binned_pixels_unsaturated.
  - rewrite (pixels_uniform (width * height)); [by rewrite length_fmap|].
    apply Forall_fmap, Forall_forall. intros i Hi. by apply Hslices.
  - apply Forall_fmap, Forall_forall. intros i Hi. simpl.
    assert (Hrange : Forall (fun v => 0 <= v <= uint16_max)
                            (concat (restored b i))).
    { eapply restore_slice_range, Hres; [|done].
      by eapply list_elem_of_lookup_2. }
    destruct (Hslices i Hi) as [_ Hsat].
    rewrite Forall_forall in Hrange. apply Forall_forall. intros v Hv.
    specialize (Hrange v Hv). unfold uint16_max in *.
    assert (v <> 65535) by (intros ->; done). lia.
Qed.

Lemma fragment_histogram_shape_example :
  exists h,
    fragment_histogram (H := Fixture.ops)
      (Fixture.task (Fixture.data_set [0] ["bit1"; "bit2"] [[7]] ∅) [[7]]) 0
    = Ok h /\
    length h = 2%nat /\
    Forall (fun row => Z.of_nat (length row) = 65534) h.
Proof.
  destruct (fragment_histogram_shape (H := Fixture.ops)
              (Fixture.task (Fixture.data_set [0] ["bit1"; "bit2"] [[7]] ∅)
                 [[7]])
              0 (VStr "warp") (Fixture.warp_of [[7]])
              {| get_bit_names := ["bit1"; "bit2"]; get_bit_count := 2 |}
              (fun _ => 0) (fun _ _ => [[7]]))
    as (h & ds' & Hfrag & _ & _ & Hlen & Hrows & _).
  - reflexivity.
  - reflexivity.
  - reflexivity.
  - simpl. lia.
  - intros b _. reflexivity.
  - intros b i _ _. reflexivity.
  - exists h. split; [exact Hfrag|]. split; [exact Hlen|exact Hrows].
Defined.

(** C1 as stated fails: for a codebook of two bits the histogram that is
    built has two rows of 65534 counts, not of 65535. *)
Lemma fragment_histogram_not_65535_wide :
  result_map
    (fun h : image Z =>
       (Z.of_nat (length h), (fun row => Z.of_nat (length row)) <$> h))
    (fragment_histogram (H := Fixture.ops)
       (Fixture.task (Fixture.data_set [0] ["bit1"; "bit2"] [[7]] ∅) [[7]])
       0)
  = Ok (2, [65534; 65534]) /\
  result_map
    (fun h : image Z =>
       (Z.of_nat (length h), (fun row => Z.of_nat (length row)) <$> h))
    (fragment_histogram (H := Fixture.ops)
       (Fixture.task (Fixture.data_set [0] ["bit1"; "bit2"] [[7]] ∅) [[7]])
       0)
  <> Ok (2, [65535; 65535]).
Proof.
  assert (Heval :
    result_map
      (fun h : image Z =>
         (Z.of_nat (length h), (fun row => Z.of_nat (length row)) <$> h))
      (fragment_histogram (H := Fixture.ops)
         (Fixture.task (Fixture.data_set [0] ["bit1"; "bit2"] [[7]] ∅)
            [[7]])
         0)
    = Ok (2, [65534; 65534])) by (vm_compute; reflexivity).
  split; [exact Heval|]. rewrite Heval. discriminate.
Qed.

Lemma fragment_histogram_row_sums_example :
  exists h ds',
    _run_analysis (H := Fixture.ops)
      (Fixture.task (Fixture.data_set [0] ["bit1"] [[7; 9]] ∅) [[7; 9]]) 0
    = Ok ds' /\
    numpy_results ds' !! 0 = Some h /\
    exists row, h !! 0%nat = Some row /\ sum_Z row = 2.
Proof.
  destruct (fragment_histogram_row_sums (H := Fixture.ops)
              (Fixture.task (Fixture.data_set [0] ["bit1"] [[7; 9]] ∅)
                 [[7; 9]])
              0 (VStr "warp") (Fixture.warp_of [[7; 9]])
              {| get_bit_names := ["bit1"]; get_bit_count := 1 |}
              (fun _ => 0) (fun _ _ => [[7; 9]]))
    as (h & ds' & Hrun & Hsaved & Hsums).
  - reflexivity.
  - reflexivity.
  - reflexivity.
  - simpl. lia.
  - intros b _. reflexivity.
  - intros b i _ _. reflexivity.
  - exists h, ds'. split; [exact Hrun|]. split; [exact Hsaved|].
    destruct (Hsums 0%nat "bit1" eq_refl) as (row & Hrow & _ & Hsum).
    exists row. split; [exact Hrow|].
    apply (Hsum 2 1). intros i _. split; [reflexivity|].
    simpl. intros Hin. repeat (apply elem_of_cons in Hin as [Hin|Hin];
                                [discriminate|]).
    by apply elem_of_nil in Hin.
Defined.

(** C4 as stated fails: one bit, one depth slice and a restored image of
    two pixels, one of them saturated at 65535; the row of the bit sums
    to one, not to the two pixels of the image. *)
Lemma fragment_histogram_drops_saturated_pixel :
  _preprocess_image (H := Fixture.ops)
    (Fixture.task (Fixture.data_set [0] ["bit1"] [[7; 65535]] ∅)
       [[7; 65535]])
    [[7; 65535]]
  = Ok [[7; 65535]] /\
  result_map (fun h : image Z => sum_Z <$> h)
    (fragment_histogram (H := Fixture.ops)
       (Fixture.task (Fixture.data_set [0] ["bit1"] [[7; 65535]] ∅)
          [[7; 65535]])
       0)
  = Ok [1] /\
  result_map (fun h : image Z => sum_Z <$> h)
    (fragment_histogram (H := Fixture.ops)
       (Fixture.task (Fixture.data_set [0] ["bit1"] [[7; 65535]] ∅)
          [[7; 65535]])
       0)
  <> Ok [2 * 1 * 1].
Proof.
  assert (Heval :
    result_map (fun h : image Z => sum_Z <$> h)
      (fragment_histogram (H := Fixture.ops)
         (Fixture.task (Fixture.data_set [0] ["bit1"] [[7; 65535]] ∅)
            [[7; 65535]])
         0)
    = Ok [1]) by (vm_compute; reflexivity).
  split; [vm_compute; reflexivity|].
  split; [exact Heval|]. rewrite Heval. discriminate.
Qed.

(** ** The caller's array *)

Lemma frame_refl (h : heap) : frame h h.
Proof. by intros l a. Qed.

Lemma fresh_unused (h : heap) : h !! fresh (dom h) = None.
Proof. apply not_elem_of_dom, is_fresh. Qed.

Lemma frame_unused (h h' : heap) (l : positive) :
  frame h h' -> h' !! l = None -> h !! l = None.
Proof.
  intros Hframe Hl. destruct (h !! l) as [a|] eqn:Hhl; [|done].
  apply Hframe in Hhl. congruence.
Qed.

Lemma frame_write (h h' : heap) (l : positive) (a : ndarray) :
  frame h h' -> h !! l = None -> frame h (<[l := a]> h').
Proof.
  intros Hframe Hl l' a' Hl'. rewrite lookup_insert_ne; [by apply Hframe|].
  intros ->. congruence.
Qed.

Lemma frame_alloc (h h' : heap) (a : ndarray) :
  frame h h' ->
  frame h (fst (alloc h' a)) /\ h !! snd (alloc h' a) = None.
Proof.
  intros Hframe. unfold alloc. simpl.
  assert (h !! fresh (dom h') = None) as Hfresh
    by (eapply frame_unused; [done|apply fresh_unused]).
  split; [by apply frame_write|done].
Qed.

(** C9: the pipeline leaves the image it is given unchanged.  Whenever
    the restoration of the image behind [inputImage] returns, it returns
    on the store as well, the restored image is a new array, and every
    array that existed before the call, the input among them, still has
    its content: the only write in place goes to the array that the
    subtraction has just made. *)
Theorem preprocess_image_keeps_input `{ImageOps}
    (decon_leaves : image Q -> image Q) (self : DeconvolutionPreprocess)
    (h : heap) (inputImage : positive) (img restored : image Z) :
  h !! inputImage = Some (U16 img) ->
  _preprocess_image self img = Ok restored ->
  exists h' out,
    preprocess_image_on_store decon_leaves self h inputImage = Ok (h', out) /\
    h' !! inputImage = Some (U16 img) /\
    frame h h' /\
    h !! out = None /\
    h' !! out = Some (U16 restored).
Proof.
  intros Hin Hpure.
  unfold _preprocess_image, background_suppress in Hpure.
  unfold preprocess_image_on_store, read_u16.
  destruct (filter_size (_highPassSigma self)) as [k|e]; [|discriminate].
  destruct (getitem (parameters self) "decon_filter_size") as [size|e];
    [|discriminate].
  rewrite Hin. simpl in *.
  destruct (GaussianBlur img k (_highPassSigma self)) as [blurred|e];
    [|discriminate].
  simpl in *.
  destruct (deconvolve_lucyrichardson _ size _ _) as [deconvolved|e];
    [|discriminate].
  simpl in *. injection Hpure as <-.
  set (h0 := h).
  pose proof (frame_refl h0) as F0.
  destruct (frame_alloc h0 h0 (F64 (astype_float img)) F0) as [F1 _].
  set (h1 := fst (alloc h0 _)) in *.
  destruct (frame_alloc h0 h1 (U16 blurred) F1) as [F2 _].
  set (h2 := fst (alloc h1 _)) in *.
  destruct (frame_alloc h0 h2
              (F64 (zip_with (zip_with Qminus) (astype_float img)
                      (astype_float blurred))) F2) as [F3 Hfiltered].
  set (h3 := fst (alloc h2 _)) in *.
  set (filteredImage := snd (alloc h2 _)) in *.
  pose proof (frame_write h0 h3 filteredImage
                (F64 (clip_negative
                        (zip_with (zip_with Qminus) (astype_float img)
                           (astype_float blurred)))) F3 Hfiltered) as F4.
  set (h4 := <[filteredImage := _]> h3) in F4.
  pose proof (frame_write h0 h4 filteredImage
                (F64 (decon_leaves
                        (clip_negative
                           (zip_with (zip_with Qminus) (astype_float img)
                              (astype_float blurred)))))
                F4 Hfiltered) as F5.
  set (h5 := <[filteredImage := _]> h4) in F5.
  destruct (frame_alloc h0 h5 (F64 deconvolved) F5) as [F6 _].
  set (h6 := fst (alloc h5 _)) in *.
  destruct (frame_alloc h0 h6 (U16 (astype_uint16 deconvolved)) F6)
    as [F7 Hout].
  exists (fst (alloc h6 (U16 (astype_uint16 deconvolved)))),
         (snd (alloc h6 (U16 (astype_uint16 deconvolved)))).
  split; [reflexivity|].
  split; [by apply F7|].
  split; [exact F7|].
  split; [exact Hout|].
  unfold alloc. simpl. apply lookup_insert_eq.
Qed.

Lemma preprocess_image_keeps_input_example :
  exists h' out,
    preprocess_image_on_store (H := Fixture.ops) (fun _ => [])
      (Fixture.task (Fixture.data_set [0] ["bit1"] [[5; 0]] ∅) [[5; 0]])
      {[ 1%positive := U16 [[5; 0]] ]} 1%positive = Ok (h', out) /\
    h' !! 1%positive = Some (U16 [[5; 0]]).
Proof.
  destruct (preprocess_image_keeps_input (H := Fixture.ops) (fun _ => [])
              (Fixture.task (Fixture.data_set [0] ["bit1"] [[5; 0]] ∅)
                 [[5; 0]])
              {[ 1%positive := U16 [[5; 0]] ]} 1%positive
              [[5; 0]] [[5; 0]])
    as (h' & out & Hrun & Hin & _).
  - reflexivity.
  - reflexivity.
  - exists h', out. split; [exact Hrun|exact Hin].
Defined.

(** ** Image names *)

Lemma string_length_app (s t : string) :
  String.length (s +:+ t) = (String.length s + String.length t)%nat.
Proof. induction s as [|a s IH]; [done|]. simpl. by rewrite IH. Qed.

Lemma string_app_cancel_r (s1 s2 t : string) :
  s1 +:+ t = s2 +:+ t -> s1 = s2.
Proof.
  revert s2. induction s1 as [|a s1 IH]; intros [|b s2] Heq; simpl in Heq.
  - done.
  - apply (f_equal String.length) in Heq.
    change (String.length t = S (String.length (s2 +:+ t))) in Heq.
    rewrite string_length_app in Heq. lia.
  - apply (f_equal String.length) in Heq.
    change (S (String.length (s1 +:+ t)) = String.length t) in Heq.
    rewrite string_length_app in Heq. lia.
  - injection Heq as -> Heq. f_equal. by apply IH.
Qed.

(** X1: two different fragments never get the same preprocessed image
    name: for one destination directory [_image_name] is injective in the
    fragment index. *)
Theorem image_name_distinct (sep destPath : string) (fov1 fov2 : Z) :
  fov1 <> fov2 ->
  _image_name sep destPath fov1 <> _image_name sep destPath fov2.
Proof.
  intros Hne Heq. apply Hne. unfold _image_name in Heq.
  apply (inj (String.app destPath)) in Heq.
  apply (inj (String.app sep)) in Heq.
  apply (inj (String.app "fov_")) in Heq.
  apply string_app_cancel_r in Heq.
  by apply (inj pretty) in Heq.
Qed.

Lemma image_name_distinct_example :
  _image_name "/" "analysis/preprocessed_images" 3
  <> _image_name "/" "analysis/preprocessed_images" 13.
Proof.
  apply (image_name_distinct "/" "analysis/preprocessed_images" 3 13).
  discriminate.
Defined.

Example image_name_of_fragment_12 :
  _image_name "/" "out" 12 = "out/fov_12.tif".
Proof. reflexivity. Qed.

(** ** More on configuration resolution *)

(** X2: configuration resolution is idempotent: resolving a dictionary
    that was already resolved returns it unchanged. *)
Theorem resolve_parameters_idempotent `{ImageOps} (p p' : params) :
  resolve_parameters p = Ok p' -> resolve_parameters p' = Ok p'.
Proof.
  intros Hres.
  destruct (resolve_parameters_Ok_lookup p p' Hres) as (n & _ & Hlook).
  assert (Hkeys : forall k, k ∈ restoration_keys -> is_Some (p' !! k)).
  { intros k Hk. rewrite Hlook. destruct (p !! k); [by eexists|].
    unfold restoration_keys in Hk.
    repeat (apply elem_of_cons in Hk as [->|Hk]; [by eexists|]).
    by apply elem_of_nil in Hk. }
  destruct (resolve_parameters_lookup p' 0) as (p'' & Hres' & Hlook').
  { intros Hnone. destruct (Hkeys "decon_filter_size") as [v Hv];
      [unfold restoration_keys; set_solver|congruence]. }
  rewrite Hres'. f_equal. apply map_eq. intros k. rewrite Hlook'.
  destruct (p' !! k) as [v|] eqn:Hk; [done|].
  assert (k ∉ restoration_keys) as Hnot.
  { intros Hin. destruct (Hkeys k Hin). congruence. }
  unfold restoration_keys in Hnot.
  repeat case_decide; subst; try done; exfalso; apply Hnot; set_solver.
Qed.

Lemma resolve_parameters_idempotent_example :
  exists p' : params,
    resolve_parameters (H := Fixture.ops) Fixture.minimal_parameters
      = Ok p' /\
    resolve_parameters (H := Fixture.ops) p' = Ok p'.
Proof.
  destruct (resolve_parameters_lookup (H := Fixture.ops)
              Fixture.minimal_parameters 9)
    as (p' & Hres & _).
  { intros _. reflexivity. }
  exists p'. split; [exact Hres|].
  exact (resolve_parameters_idempotent (H := Fixture.ops)
           Fixture.minimal_parameters p' Hres).
Defined.

Lemma Qceiling_positive (x : Q) : (0 < x)%Q -> 1 <= Qceiling x.
Proof.
  intros Hx. pose proof (Qle_ceiling x) as Hc.
  assert (0 < Qceiling x); [|lia].
  rewrite Zlt_Qlt. eapply Qlt_le_trans; [exact Hx|exact Hc].
Qed.

(** X3: for a sigma that is a number of magnitude at most [2^50],
    where the float64 and int64 arithmetic of the formula is exact, the
    kernel width that the code derives, for the deconvolution default or
    for the high-pass blur, is computed without an exception and is odd,
    and it is at least 3 when the sigma is positive. *)
Theorem filter_size_odd `{ImageOps} (sigma : pyval) :
  in_exact_range sigma = true ->
  exists n,
    filter_size sigma = Ok n /\
    Z.odd n = true /\
    (is_positive sigma -> 3 <= n).
Proof.
  destruct sigma as [k|x| | |s]; simpl; try discriminate; intros Hrange.
  - exists (2 * (2 * k) + 1). split; [|split].
    + apply filter_size_int. by apply Z.leb_le.
    + by rewrite Z.add_comm, Z.odd_add_mul_2.
    + lia.
  - exists (2 * Qceiling (2 * x) + 1). split; [|split].
    + apply filter_size_float. by apply Qle_bool_iff.
    + by rewrite Z.add_comm, Z.odd_add_mul_2.
    + intros Hx.
      assert (1 <= Qceiling (2 * x)); [|lia].
      apply Qceiling_positive.
      rewrite <- (Qmult_0_r 2). by apply Qmult_lt_l.
Qed.

Lemma filter_size_odd_example :
  exists n,
    filter_size (H := Fixture.ops) (VFloat (1 # 4)) = Ok n /\
    Z.odd n = true /\
    (is_positive (VFloat (1 # 4)) -> 3 <= n).
Proof.
  apply (filter_size_odd (H := Fixture.ops) (VFloat (1 # 4))). reflexivity.
Defined.

(** ** More on [__init__] *)

(** What a returned [__init__] tells about its arguments. *)
Lemma init_Ok `{ImageOps} (ds : DataSet) (p : params)
    (self : DeconvolutionPreprocess) :
  init ds p = Ok self ->
  exists name,
    p !! "warp_task" = Some name /\
    load_analysis_task ds name = Ok (warpTask self) /\
    resolve_parameters p = Ok (parameters self) /\
    dataSet self = ds /\
    _highPassSigma self = default (VInt 3) (p !! "highpass_sigma") /\
    _deconSigma self = default (VInt 2) (p !! "decon_sigma") /\
    _deconIterations self = default (VInt 20) (p !! "decon_iterations").
Proof.
  unfold init. intros Hinit.
  destruct (resolve_parameters p) as [p'|e] eqn:Hres; [|discriminate].
  destruct (resolve_parameters_Ok_lookup p p' Hres) as (n & _ & Hlook).
  simpl in Hinit. unfold getitem in Hinit. rewrite !Hlook in Hinit.
  destruct (p !! "warp_task") as [name|]; simpl in Hinit.
  - destruct (p !! "highpass_sigma"), (p !! "decon_sigma"),
      (p !! "decon_iterations"); simpl in Hinit;
      (destruct (load_analysis_task ds name) as [task|e] eqn:Hload;
       [|discriminate]);
      simpl in Hinit; injection Hinit as <-; exists name; simpl;
      repeat split; done.
  - destruct (p !! "highpass_sigma"), (p !! "decon_sigma"),
      (p !! "decon_iterations"); discriminate.
Qed.

(** X5: a task that [__init__] returned has every key that its methods
    read: [get_dependencies] returns the one warp task that was named
    and loaded, [get_codebook] asks the data set for the codebook at the
    supplied [codebook_index], or at 0 when none was supplied, and the
    filter size that [_preprocess_image] looks up is there: the supplied
    one, or the one derived from the sigma that the task keeps.  None of
    them raises a KeyError. *)
Theorem init_provides_keys `{ImageOps} (ds : DataSet) (p : params)
    (self : DeconvolutionPreprocess) :
  init ds p = Ok self ->
  exists name size,
    p !! "warp_task" = Some name /\
    load_analysis_task ds name = Ok (warpTask self) /\
    get_dependencies self = Ok [name] /\
    task_codebook self
    = get_codebook ds (default (VInt 0) (p !! "codebook_index")) /\
    getitem (parameters self) "decon_filter_size" = Ok size /\
    (forall v, p !! "decon_filter_size" = Some v -> size = v) /\
    (p !! "decon_filter_size" = None ->
     exists n, size = VInt n /\ filter_size (_deconSigma self) = Ok n).
Proof.
  intros Hinit.
  destruct (init_Ok ds p self Hinit)
    as (name & Hname & Hload & Hres & Hds & _ & Hsigma & _).
  destruct (resolve_parameters_Ok_lookup p _ Hres) as (n & Hsize & Hlook).
  exists name, (default (VInt n) (p !! "decon_filter_size")).
  split; [done|]. split; [done|].
  split. { unfold get_dependencies, getitem. by rewrite Hlook, Hname. }
  split.
  { unfold task_codebook, getitem. rewrite Hlook, Hds.
    by destruct (p !! "codebook_index"). }
  split.
  { unfold getitem. rewrite Hlook. by destruct (p !! "decon_filter_size"). }
  split. { intros v Hv. by rewrite Hv. }
  intros Hnone. exists n. rewrite Hnone. split; [done|].
  rewrite Hsigma. by apply Hsize.
Qed.

Lemma init_provides_keys_example :
  exists self,
    init (H := Fixture.ops) (Fixture.data_set [0] ["bit1"] [[0]] ∅)
      Fixture.minimal_parameters
    = Ok self /\
    get_dependencies self = Ok [VStr "warp"].
Proof.
  destruct (init_succeeds (H := Fixture.ops)
              (Fixture.data_set [0] ["bit1"] [[0]] ∅)
              Fixture.minimal_parameters (VStr "warp")
              (Fixture.warp_of [[0]]) 9)
    as (p' & _ & Hinit).
  - reflexivity.
  - reflexivity.
  - intros _. reflexivity.
  - eexists. split; [exact Hinit|].
    destruct (init_provides_keys (H := Fixture.ops) _ _ _ Hinit)
      as (name & size & Hname & _ & Hdeps & _).
    rewrite Hdeps. vm_compute in Hname. by injection Hname as <-.
Defined.

(** ** More on the restoration pipeline *)

(** X6: the only ways in which [_preprocess_image] fails.  The kernel
    width of the high-pass sigma cannot be computed: the sigma is a
    string (TypeError from [np.ceil]), NaN (ValueError), an infinity
    (OverflowError) or a number of magnitude above [2^50], with the
    exception of the arithmetic.  Or the filter size is not in the
    parameters (KeyError), the blur fails, or the deconvolution fails;
    the exception of a collaborator reaches the caller unchanged. *)
Theorem preprocess_image_failures `{ImageOps}
    (self : DeconvolutionPreprocess) (img : image Z) (e : exn) :
  _preprocess_image self img = Raise e ->
  (in_exact_range (_highPassSigma self) = false /\
   match _highPassSigma self with
   | VInt _ | VFloat _ => filter_size_inexact (_highPassSigma self) = Raise e
   | VNaN => e = ValueError
   | VInf _ => e = OverflowError
   | VStr _ => e = TypeError
   end) \/
  (e = KeyError "decon_filter_size" /\
   parameters self !! "decon_filter_size" = None) \/
  (exists k,
     filter_size (_highPassSigma self) = Ok k /\
     GaussianBlur img k (_highPassSigma self) = Raise e) \/
  (exists k size filtered,
     background_suppress (_highPassSigma self) k img = Ok filtered /\
     parameters self !! "decon_filter_size" = Some size /\
     deconvolve_lucyrichardson filtered size (_deconSigma self)
       (_deconIterations self) = Raise e).
Proof.
  unfold _preprocess_image. intros Hrun.
  destruct (filter_size (_highPassSigma self)) as [k|e'] eqn:Hk.
  2: { left. simpl in Hrun. injection Hrun as <-.
       by apply filter_size_Raise in Hk. }
  simpl in Hrun. unfold getitem in Hrun.
  destruct (parameters self !! "decon_filter_size") as [size|] eqn:Hsize.
  2: { right. left. simpl in Hrun. by injection Hrun as <-. }
  simpl in Hrun.
  destruct (background_suppress _ k img) as [filtered|e'] eqn:Hfiltered.
  2: { right. right. left. exists k. split; [done|].
       simpl in Hrun. injection Hrun as <-.
       unfold background_suppress in Hfiltered.
       destruct (GaussianBlur img k (_highPassSigma self));
         simpl in Hfiltered; congruence. }
  simpl in Hrun.
  destruct (deconvolve_lucyrichardson filtered size _ _) as [d|e'] eqn:Hd;
    [discriminate|].
  right. right. right. exists k, size, filtered.
  simpl in Hrun. injection Hrun as <-. done.
Qed.

Lemma preprocess_image_failures_example :
  _preprocess_image (H := Fixture.ops) Fixture5.huge_sigma_task [[5; 0]]
  = Raise OverflowError /\
  in_exact_range (_highPassSigma Fixture5.huge_sigma_task) = false.
Proof.
  assert (Hrun :
    _preprocess_image (H := Fixture.ops) Fixture5.huge_sigma_task [[5; 0]]
    = Raise OverflowError) by reflexivity.
  split; [exact Hrun|].
  destruct (preprocess_image_failures (H := Fixture.ops)
              Fixture5.huge_sigma_task [[5; 0]] OverflowError Hrun)
    as [[Hrange _]
       |[[He _]|[(k & Hk & _)|(k & size & filtered & _ & _ & Hd)]]];
    [exact Hrange|discriminate..].
Defined.

Example preprocess_image_string_sigma :
  _preprocess_image (H := Fixture.ops) Fixture2.string_sigma_task [[5; 0]]
  = Raise TypeError.
Proof. reflexivity. Qed.

Lemma background_suppress_dims `{ImageOps} (sigma : pyval) (k : Z)
    (img : image Z) (filtered : image Q) :
  (forall src k' s out,
     GaussianBlur src k' s = Ok out -> same_dims out src) ->
  background_suppress sigma k img = Ok filtered ->
  same_dims filtered img.
Proof.
  intros Hblur. unfold background_suppress.
  destruct (GaussianBlur img k sigma) as [blurred|e] eqn:Hb; [|discriminate].
  apply Hblur in Hb. simpl. intros Hf. injection Hf as <-.
  eapply same_dims_trans; [apply img_map_dims|].
  eapply same_dims_trans; [apply zip_with_dims|apply img_map_dims].
  eapply same_dims_trans; [apply img_map_dims|].
  apply same_dims_sym.
  eapply same_dims_trans; [apply img_map_dims|exact Hb].
Qed.

(** X7: when the blur and the deconvolution return arrays of the
    dimensions of their argument, every image that [_preprocess_image]
    returns has the dimensions of the input image. *)
Theorem preprocess_image_dims `{ImageOps} (self : DeconvolutionPreprocess)
    (img restored : image Z) :
  (forall src k s out,
     GaussianBlur src k s = Ok out -> same_dims out src) ->
  (forall observed size s n out,
     deconvolve_lucyrichardson observed size s n = Ok out ->
     same_dims out observed) ->
  _preprocess_image self img = Ok restored ->
  same_dims restored img.
Proof.
  intros Hblur Hdecon. unfold _preprocess_image. intros Hrun.
  destruct (filter_size (_highPassSigma self)) as [k|e]; [|discriminate].
  simpl in Hrun.
  destruct (getitem (parameters self) "decon_filter_size") as [size|e];
    [|discriminate].
  simpl in Hrun.
  destruct (background_suppress _ k img) as [filtered|e] eqn:Hfiltered;
    [|discriminate].
  simpl in Hrun.
  destruct (deconvolve_lucyrichardson filtered size _ _) as [d|e] eqn:Hd;
    [|discriminate].
  injection Hrun as <-.
  eapply same_dims_trans; [apply img_map_dims|].
  eapply same_dims_trans; [by eapply Hdecon|].
  by eapply background_suppress_dims.
Qed.

Lemma preprocess_image_dims_example :
  same_dims [[5; 2]; [3; 0]] [[9; 3]; [5; 0]].
Proof.
  apply (preprocess_image_dims (H := Fixture2.half_ops)
           (Fixture.task (Fixture.data_set [0] ["bit1"] [[0]] ∅) [[0]])
           [[9; 3]; [5; 0]] [[5; 2]; [3; 0]]).
  - intros src k s out Hout. injection Hout as <-. apply img_map_dims.
  - intros observed size s n out Hout. by injection Hout as <-.
  - vm_compute. reflexivity.
Defined.

Lemma suppress_entries (img blurred : image Z) :
  same_dims blurred img ->
  all_entries (fun v => 0 <= v) img ->
  all_entries (fun v => 0 <= v) blurred ->
  Forall2 (Forall2 (fun (o : Q) (x : Z) =>
                      (0 <= o)%Q /\ (o <= inject_Z x)%Q))
    (clip_negative
       (zip_with (zip_with Qminus) (astype_float img)
          (astype_float blurred)))
    img.
Proof.
  unfold same_dims, all_entries, clip_negative, astype_float, img_map.
  revert blurred.
  induction img as [|row img IH]; intros [|brow blurred] Hdims Himg Hb;
    try discriminate.
  { constructor. }
  simpl in Hdims. injection Hdims as Hrow Hrest.
  inversion Himg as [|? ? Hrow0 Himg']; subst.
  inversion Hb as [|? ? Hbrow0 Hb']; subst.
  simpl. constructor; [|by apply IH].
  clear IH Hrest Himg Hb Himg' Hb'. revert brow Hrow Hbrow0.
  induction row as [|x row IHrow]; intros [|b brow] Hlen Hbrow;
    try discriminate.
  { constructor. }
  simpl in Hlen. injection Hlen as Hlen.
  inversion Hrow0 as [|? ? Hx Hrow']; subst.
  inversion Hbrow as [|? ? Hb Hbrow']; subst.
  simpl. constructor; [|by apply IHrow].
  split; [apply clip_nonnegative|].
  destruct (Qle_bool 0 (inject_Z x - inject_Z b)).
  - assert (inject_Z x - inject_Z b == inject_Z (x - b))%Q as ->.
    { unfold Qminus. by rewrite <- inject_Z_opp, <- inject_Z_plus. }
    rewrite <- Zle_Qle. lia.
  - change 0%Q with (inject_Z 0). by rewrite <- Zle_Qle.
Qed.

(** X8: background suppression of a [uint16] image never raises a pixel:
    every entry of its output lies between zero and the pixel of the
    input at the same place. *)
Theorem background_suppress_bounded `{ImageOps} (sigma : pyval) (k : Z)
    (img blurred : image Z) :
  GaussianBlur img k sigma = Ok blurred ->
  same_dims blurred img ->
  all_entries (fun v => 0 <= v) img ->
  all_entries (fun v => 0 <= v) blurred ->
  exists out,
    background_suppress sigma k img = Ok out /\
    Forall2 (Forall2 (fun (o : Q) (x : Z) =>
                        (0 <= o)%Q /\ (o <= inject_Z x)%Q)) out img.
Proof.
  intros Hblur Hdims Himg Hb. unfold background_suppress.
  rewrite Hblur. simpl. eexists. split; [reflexivity|].
  by apply suppress_entries.
Qed.

Lemma background_suppress_bounded_example :
  exists out,
    background_suppress (H := Fixture2.half_ops) (VInt 3) 13
      [[9; 3]; [5; 0]] = Ok out /\
    Forall2 (Forall2 (fun (o : Q) (x : Z) =>
                        (0 <= o)%Q /\ (o <= inject_Z x)%Q))
      out [[9; 3]; [5; 0]].
Proof.
  apply (background_suppress_bounded (H := Fixture2.half_ops) (VInt 3) 13
           [[9; 3]; [5; 0]] [[4; 1]; [2; 0]]).
  - reflexivity.
  - reflexivity.
  - repeat constructor; discriminate.
  - repeat constructor; discriminate.
Defined.

(** ** The processed image set *)

Lemma mapM_Ok {A B} (f : A -> result B) (l : list A) (k : list B) :
  mapM f l = Ok k <-> Forall2 (fun x y => f x = Ok y) l k.
Proof.
  revert k. induction l as [|x l IH]; intros k; cbn [mapM].
  - split.
    + intros Hk. injection Hk as <-. constructor.
    + intros Hk. by inversion Hk.
  - split.
    + intros Hk. destruct (f x) as [y|e] eqn:Hx; [|discriminate].
      simpl in Hk. destruct (mapM f l) as [k'|e]; [|discriminate].
      injection Hk as <-. constructor; [done|]. by apply IH.
    + intros Hk. inversion Hk as [|? y ? k' Hx Hrest]; subst.
      rewrite Hx. simpl. apply IH in Hrest. by rewrite Hrest.
Qed.

Section ImageSet.
Context `{ImageOps}.

Lemma processed_image_of_bit_range (self : DeconvolutionPreprocess)
    (fov : Z) (cc : option ChromaticCorrector) (b : string) (z : nat)
    (img : image Z) :
  processed_image_of_bit self fov cc b z = Ok img ->
  all_entries (fun v => 0 <= v <= uint16_max) img.
Proof.
  unfold processed_image_of_bit, get_processed_image_corrected.
  intros Hrun.
  destruct (get_data_channel_for_bit _ b) as [ch|e]; [|discriminate].
  simpl in Hrun.
  destruct (aligned_image _ cc fov ch z) as [input|e]; [|discriminate].
  by apply preprocess_image_range in Hrun.
Qed.

Lemma processed_image_of_bit_Ok (self : DeconvolutionPreprocess)
    (fov : Z) (cc : option ChromaticCorrector) (b : string) (z : nat)
    (img : image Z) :
  processed_image_of_bit self fov cc b z = Ok img ->
  exists ch,
    get_data_channel_for_bit (dataSet self) b = Ok ch /\
    get_processed_image_corrected self fov ch z cc = Ok img.
Proof.
  unfold processed_image_of_bit. intros Hrun.
  destruct (get_data_channel_for_bit _ b) as [ch|e]; [|discriminate].
  by exists ch.
Qed.

(** X9: whenever [get_processed_image_set] returns, it returns one
    element per bit name of the codebook, in the order of the codebook:
    the element at the place of a bit holds the processed images of the
    channel of that bit, without a slice index one image per depth
    position in the order of the positions, with a slice index the
    image at that position; and every pixel of every image is a
    [uint16] value. *)
Theorem processed_image_set_shape (self : DeconvolutionPreprocess)
    (fov : Z) (zIndex : option nat) (cc : option ChromaticCorrector)
    (set : image_set) :
  get_processed_image_set self fov zIndex cc = Ok set ->
  exists cb,
    task_codebook self = Ok cb /\
    match zIndex, set with
    | None, AllSlices perBit =>
        length perBit = length (get_bit_names cb) /\
        Forall (fun slices =>
                  length slices = length (get_z_positions (dataSet self)) /\
                  Forall (all_entries (fun v => 0 <= v <= uint16_max))
                         slices)
               perBit /\
        Forall2 (fun b slices =>
                   Forall2 (fun z img =>
                              exists ch,
                                get_data_channel_for_bit (dataSet self) b
                                = Ok ch /\
                                get_processed_image_corrected self fov ch z
                                  cc = Ok img)
                     (seq 0 (length (get_z_positions (dataSet self))))
                     slices)
          (get_bit_names cb) perBit
    | Some z, OneSlice perBit =>
        length perBit = length (get_bit_names cb) /\
        Forall (all_entries (fun v => 0 <= v <= uint16_max)) perBit /\
        Forall2 (fun b img =>
                   exists ch,
                     get_data_channel_for_bit (dataSet self) b = Ok ch /\
                     get_processed_image_corrected self fov ch z cc = Ok img)
          (get_bit_names cb) perBit
    | _, _ => False
    end.
Proof.
  unfold get_processed_image_set. intros Hrun.
  destruct zIndex as [z|];
    (destruct (task_codebook self) as [cb|e]; [|discriminate]);
    simpl in Hrun; exists cb; (split; [done|]).
  - destruct (mapM _ (get_bit_names cb)) as [perBit|e] eqn:Hmap;
      [|discriminate].
    injection Hrun as <-. apply mapM_Ok in Hmap. split; [|split].
    + symmetry. by eapply Forall2_length.
    + clear -Hmap. induction Hmap as [|b img names perBit Hb _ IH];
        constructor; [|done].
      by eapply processed_image_of_bit_range.
    + eapply Forall2_impl; [exact Hmap|]. intros b img Hb. simpl in Hb.
      by apply processed_image_of_bit_Ok.
  - destruct (mapM _ (get_bit_names cb)) as [perBit|e] eqn:Hmap;
      [|discriminate].
    injection Hrun as <-. apply mapM_Ok in Hmap. split; [|split].
    + symmetry. by eapply Forall2_length.
    + clear -Hmap. induction Hmap as [|b slices names perBit Hb _ IH];
        constructor; [|done].
      apply mapM_Ok in Hb. split.
      * apply Forall2_length in Hb. by rewrite length_seq in Hb.
      * clear -Hb. induction Hb as [|z img zs slices Hz _ IH];
          constructor; [|done].
        by eapply processed_image_of_bit_range.
    + eapply Forall2_impl; [exact Hmap|]. intros b slices Hb. simpl in Hb.
      apply mapM_Ok in Hb.
      eapply Forall2_impl; [exact Hb|]. intros z img Hzimg. simpl in Hzimg.
      by apply processed_image_of_bit_Ok.
Qed.

(** X10: the two modes of [get_processed_image_set] agree: when the set
    of all slices is returned, the set for any one depth position is
    returned as well, and it holds, bit by bit, the image at that
    position of the full set. *)
Theorem processed_image_set_slice (self : DeconvolutionPreprocess)
    (fov : Z) (cc : option ChromaticCorrector)
    (perBit : list (list (image Z))) (z : nat) :
  get_processed_image_set self fov None cc = Ok (AllSlices perBit) ->
  (z < length (get_z_positions (dataSet self)))%nat ->
  get_processed_image_set self fov (Some z) cc
  = Ok (OneSlice ((fun slices => default [] (slices !! z)) <$> perBit)).
Proof.
  unfold get_processed_image_set. intros Hrun Hz.
  destruct (task_codebook self) as [cb|e]; [|discriminate].
  simpl in *.
  destruct (mapM _ (get_bit_names cb)) as [perBit'|e] eqn:Hmap;
    [|discriminate].
  injection Hrun as ->. apply mapM_Ok in Hmap.
  assert (Hslice :
    mapM (fun b => processed_image_of_bit self fov cc b z)
         (get_bit_names cb)
    = Ok ((fun slices => default [] (slices !! z)) <$> perBit)).
  { apply mapM_Ok, Forall2_fmap_r.
    eapply Forall2_impl; [exact Hmap|]. intros b slices Hb. simpl in Hb.
    apply mapM_Ok in Hb.
    destruct (Forall2_lookup_l _ _ _ z z Hb) as (img & Himg & Hrun).
    { apply lookup_seq. split; [done|lia]. }
    unfold compose. by rewrite Himg. }
  by rewrite Hslice.
Qed.

(** X11: without depth positions the set of all slices is one empty list
    per bit, and neither the channel of a bit nor an image is asked for:
    the call returns whatever the channel mapping and the warp task
    would do. *)
Theorem processed_image_set_no_slices (self : DeconvolutionPreprocess)
    (fov : Z) (cc : option ChromaticCorrector) (cb : Codebook) :
  get_z_positions (dataSet self) = [] ->
  task_codebook self = Ok cb ->
  get_processed_image_set self fov None cc
  = Ok (AllSlices (replicate (length (get_bit_names cb)) [])).
Proof.
  intros Hz Hcb. unfold get_processed_image_set. rewrite Hcb, Hz. simpl.
  assert (Hmap : forall names : list string,
            mapM (fun _ : string => Ok []) names
            = Ok (replicate (length names) ([] : list (image Z)))).
  { induction names as [|b names IH]; [done|].
    cbn [mapM length replicate]. simpl. by rewrite IH. }
  by rewrite Hmap.
Qed.

End ImageSet.

Lemma processed_image_set_shape_example :
  exists cb,
    task_codebook Fixture5.channel_task = Ok cb /\
    get_bit_names cb = ["bit1"; "bit2"] /\
    get_processed_image_set (H := Fixture.ops) Fixture5.channel_task 0
      None None
    = Ok (AllSlices [[[[5; 0]]]; [[[6; 0]]]]) /\
    Forall (fun slices : list (image Z) =>
              length slices = 1%nat /\
              Forall (all_entries (fun v => 0 <= v <= uint16_max)) slices)
           [[[[5; 0]]]; [[[6; 0]]]].
Proof.
  assert (Hrun :
    get_processed_image_set (H := Fixture.ops) Fixture5.channel_task 0
      None None
    = Ok (AllSlices [[[[5; 0]]]; [[[6; 0]]]])) by (vm_compute; reflexivity).
  destruct (processed_image_set_shape (H := Fixture.ops)
              Fixture5.channel_task 0 None None
              (AllSlices [[[[5; 0]]]; [[[6; 0]]]]) Hrun)
    as (cb & Hcb & _ & Hrange & _).
  exists cb. split; [exact Hcb|]. split.
  - vm_compute in Hcb. by injection Hcb as <-.
  - split; [exact Hrun|exact Hrange].
Defined.

Lemma processed_image_set_slice_example :
  get_processed_image_set (H := Fixture.ops)
    (Fixture.task (Fixture.data_set [0] ["bit1"; "bit2"] [[5; 0]] ∅)
       [[5; 0]])
    0 (Some 0%nat) None
  = Ok (OneSlice [[[5; 0]]; [[5; 0]]]).
Proof.
  apply (processed_image_set_slice (H := Fixture.ops)
           (Fixture.task (Fixture.data_set [0] ["bit1"; "bit2"] [[5; 0]] ∅)
              [[5; 0]])
           0 None [[[[5; 0]]]; [[[5; 0]]]] 0%nat).
  - vm_compute. reflexivity.
  - simpl. lia.
Defined.

Lemma processed_image_set_no_slices_example :
  get_processed_image_set (H := Fixture.ops)
    (Fixture.task Fixture3.no_slices_set [[5; 0]]) 0 None None
  = Ok (AllSlices [[]; []]).
Proof.
  apply (processed_image_set_no_slices (H := Fixture.ops)
           (Fixture.task Fixture3.no_slices_set [[5; 0]]) 0 None
           {| get_bit_names := ["bit1"; "bit2"]; get_bit_count := 2 |}).
  - reflexivity.
  - reflexivity.
Defined.

(** ** More on [_run_analysis] *)

Lemma foldM_invariant {A B} (P : A -> Prop) (body : A -> B -> result A)
    (l : list B) (acc r : A) :
  (forall a x a', P a -> body a x = Ok a' -> P a') ->
  P acc -> foldM body acc l = Ok r -> P r.
Proof.
  intros Hstep. revert acc. induction l as [|x l IH]; intros acc Hacc Hfold.
  - simpl in Hfold. by injection Hfold as <-.
  - simpl in Hfold. destruct (body acc x) as [acc'|e] eqn:Hx; [|discriminate].
    simpl in Hfold. eapply IH; [|exact Hfold]. by eapply Hstep.
Qed.

Lemma bin_counts_nonnegative (edges samples : list Z) :
  Forall (fun c => 0 <= c) (bin_counts edges samples).
Proof.
  induction edges as [|lo [|hi [|e edges]] IH]; try constructor.
  - apply count_where_bounds.
  - constructor.
  - apply count_where_bounds.
  - exact IH.
Qed.

Lemma row_iadd_histogram_of (rows : nat) (h h' : image Z) (bi : nat)
    (img : image Z) :
  histogram_of rows h ->
  row_iadd h bi (np_histogram img histogramBins) = Ok h' ->
  histogram_of rows h'.
Proof.
  intros [Hlen Hrows] Hadd. unfold row_iadd in Hadd.
  destruct (h !! bi) as [row|] eqn:Hrow; [|discriminate].
  assert (Hrow' : histogram_row row /\ Forall (fun c => 0 <= c) row).
  { rewrite Forall_forall in Hrows. apply Hrows.
    by eapply list_elem_of_lookup_2. }
  destruct Hrow' as [Hwidth Hpos]. unfold histogram_row in Hwidth.
  pose proof (np_histogram_length img) as Hcounts.
  rewrite decide_True in Hadd by lia. injection Hadd as <-.
  split; [by rewrite length_insert|].
  apply Forall_insert; [done|]. split.
  - unfold histogram_row. rewrite length_zip_with. lia.
  - pose proof (bin_counts_nonnegative histogramBins (concat img)) as Hc.
    fold (np_histogram img histogramBins) in Hc.
    clear -Hpos Hc. revert Hc.
    generalize (np_histogram img histogramBins).
    induction Hpos as [|x row Hx _ IH]; intros [|c counts] Hc;
      simpl; try constructor.
    + inversion Hc; subst. lia.
    + inversion Hc; subst. by apply IH.
Qed.

Section RunAnalysis.
Context `{ImageOps}.

Lemma accumulate_bit_histogram_of (self : DeconvolutionPreprocess)
    (task : WarpTask) (f : Z) (rows : nat) (h h' : image Z)
    (entry : nat * string) :
  histogram_of rows h ->
  accumulate_bit self task f h entry = Ok h' ->
  histogram_of rows h'.
Proof.
  intros Hh. unfold accumulate_bit.
  destruct (get_data_channel_for_bit _ _) as [ch|e]; [|discriminate].
  simpl. apply foldM_invariant; [|done].
  intros a i a' Ha. unfold accumulate_slice.
  destruct (get_aligned_image task f ch i) as [input|e]; [|discriminate].
  simpl. destruct (_preprocess_image self input) as [r|e]; [|discriminate].
  simpl. by apply row_iadd_histogram_of.
Qed.

(** X12: whenever [_run_analysis] returns, whatever the collaborators
    answered, the histogram it saved for the fragment has as many rows
    as the codebook counts bits, 65534 counts in every row, and no
    negative count. *)
Theorem run_analysis_histogram_of (self : DeconvolutionPreprocess)
    (f : Z) (ds' : DataSet) :
  _run_analysis self f = Ok ds' ->
  exists cb h,
    task_codebook self = Ok cb /\
    numpy_results ds' !! f = Some h /\
    length h = get_bit_count cb /\
    Forall (fun row => Z.of_nat (length row) = 65534 /\
                       Forall (fun c => 0 <= c) row) h.
Proof.
  unfold _run_analysis. intros Hrun.
  destruct (fragment_histogram self f) as [h|e] eqn:Hfrag; [|discriminate].
  injection Hrun as <-. unfold fragment_histogram in Hfrag.
  destruct (getitem _ "warp_task") as [name|e]; [|discriminate].
  cbn [mbind result_bind] in Hfrag.
  destruct (load_analysis_task _ name) as [task|e]; [|discriminate].
  cbn [mbind result_bind] in Hfrag.
  destruct (task_codebook self) as [cb|e]; [|discriminate].
  cbn [mbind result_bind] in Hfrag.
  assert (Hh : histogram_of (get_bit_count cb) h).
  { eapply foldM_invariant; [|  |exact Hfrag].
    - intros a x a'. apply accumulate_bit_histogram_of.
    - unfold histogram_of, np_zeros. cbn [fst snd].
      split; [by rewrite length_replicate|].
      apply Forall_replicate. split.
      + unfold histogram_row. rewrite length_replicate.
        pose proof histogramBins_length. unfold uint16_max in *. lia.
      + by apply Forall_replicate. }
  destruct Hh as [Hlen Hrows].
  exists cb, h. split; [done|].
  split. { simpl. apply lookup_insert_eq. }
  split; [done|].
  eapply Forall_impl; [exact Hrows|]. intros row [Hw Hp].
  unfold histogram_row, uint16_max in Hw. split; [lia|done].
Qed.

(** X13: whenever [_run_analysis] returns, the histogram it built can
    be read back for that fragment, the histograms of the other
    fragments are the ones that were there before, and the list of
    fragments is unchanged. *)
Theorem run_analysis_read_back (self : DeconvolutionPreprocess) (f : Z)
    (ds' : DataSet) :
  _run_analysis self f = Ok ds' ->
  exists h,
    fragment_histogram self f = Ok h /\
    get_pixel_histogram ds' (Some f) = Ok h /\
    (forall f', f' <> f ->
       get_pixel_histogram ds' (Some f')
       = get_pixel_histogram (dataSet self) (Some f')) /\
    get_fovs ds' = get_fovs (dataSet self).
Proof.
  unfold _run_analysis. intros Hrun.
  destruct (fragment_histogram self f) as [h|e]; [|discriminate].
  injection Hrun as <-. exists h. split; [done|].
  unfold get_pixel_histogram, load_numpy_analysis_result. simpl.
  split; [by rewrite lookup_insert_eq|].
  split; [|done].
  intros f' Hne. by rewrite lookup_insert_ne.
Qed.

(** X14: the histogram of a fragment is built from the images alone:
    running [_run_analysis] again for the fragment, on the data set that
    the first run left, leaves that data set as it is.  The stored
    histogram is replaced by an equal one, nothing is added to it. *)
Theorem run_analysis_again (self : DeconvolutionPreprocess) (f : Z)
    (ds' : DataSet) :
  _run_analysis self f = Ok ds' ->
  _run_analysis (with_dataSet self ds') f = Ok ds'.
Proof.
  unfold _run_analysis. intros Hrun.
  destruct (fragment_histogram self f) as [h|e] eqn:Hfrag; [|discriminate].
  injection Hrun as <-.
  change (fragment_histogram
            (with_dataSet self (_save_pixel_histogram (dataSet self) h f)) f)
    with (fragment_histogram self f).
  rewrite Hfrag. simpl. unfold _save_pixel_histogram,
    save_numpy_analysis_result. simpl. by rewrite insert_insert_eq.
Qed.

(** The outer loop stops with an IndexError at a bit whose index is not
    a row of the histogram, when there is a depth slice to add. *)
Lemma accumulate_bits_out_of_range (self : DeconvolutionPreprocess)
    (task : WarpTask) (f : Z) (chan : string -> Z)
    (restored : string -> nat -> image Z)
    (entries : list (nat * string)) (h : image Z) (slices : list nat) :
  slices = seq 0 (length (get_z_positions (dataSet self))) ->
  slices <> [] ->
  Forall histogram_row h ->
  (exists bi b, (bi, b) ∈ entries /\ (length h <= bi)%nat) ->
  (forall bi b, (bi, b) ∈ entries ->
     get_data_channel_for_bit (dataSet self) b = Ok (chan b)) ->
  (forall bi b i, (bi, b) ∈ entries -> i ∈ slices ->
     restore_slice self task f (chan b) i = Ok (restored b i)) ->
  foldM (accumulate_bit self task f) h entries = Raise IndexError.
Proof.
  intros Hdef Hslices. revert h.
  induction entries as [|[bi0 b0] entries IH];
    intros h Hrows (bi & b & Hin & Hbi) Hchan Hres.
  { by apply elem_of_nil in Hin. }
  cbn [foldM].
  rewrite (accumulate_bit_channel _ _ _ _ _ _ (chan b0))
    by (apply (Hchan bi0 b0); left).
  rewrite <- Hdef.
  destruct (decide (bi0 < length h)%nat) as [Hlt|Hge].
  - destruct (lookup_lt_is_Some_2 h bi0 Hlt) as [row Hrow].
    assert (histogram_row row) as Hlen.
    { rewrite Forall_forall in Hrows. apply Hrows.
      by eapply list_elem_of_lookup_2. }
    destruct (accumulate_slices self task f (chan b0) bi0 (restored b0)
                slices h row Hrow Hlen) as (row' & -> & Hlen' & _).
    { intros i Hi. apply (Hres bi0 b0); [left|done]. }
    cbn [mbind result_bind]. apply IH.
    + by apply Forall_insert.
    + exists bi, b. rewrite length_insert. split; [|done].
      apply elem_of_cons in Hin as [Heq|Hin]; [|done].
      injection Heq as -> ->. lia.
    + intros bi' b' Hin'. apply (Hchan bi' b'). by right.
    + intros bi' b' i Hin'. apply (Hres bi' b' i). by right.
  - clear Hdef IH. destruct slices as [|i slices']; [done|].
    cbn [foldM].
    rewrite (accumulate_slice_restored _ _ _ _ _ _ _ (restored b0 i))
      by (apply (Hres bi0 b0); left).
    unfold row_iadd. rewrite lookup_ge_None_2 by lia. done.
Qed.

(** X15: a codebook that names more bits than it counts makes
    [_run_analysis] fail with an IndexError on the first bit beyond the
    count, provided there is at least one depth position and the
    collaborators answer; nothing is saved. *)
Theorem run_analysis_more_names_than_bits (self : DeconvolutionPreprocess)
    (f : Z) (name : pyval) (task : WarpTask) (cb : Codebook)
    (chan : string -> Z) (restored : string -> nat -> image Z) :
  getitem (parameters self) "warp_task" = Ok name ->
  load_analysis_task (dataSet self) name = Ok task ->
  task_codebook self = Ok cb ->
  (get_bit_count cb < length (get_bit_names cb))%nat ->
  get_z_positions (dataSet self) <> [] ->
  (forall b, b ∈ get_bit_names cb ->
     get_data_channel_for_bit (dataSet self) b = Ok (chan b)) ->
  (forall b i, b ∈ get_bit_names cb ->
     i ∈ seq 0 (length (get_z_positions (dataSet self))) ->
     restore_slice self task f (chan b) i = Ok (restored b i)) ->
  _run_analysis self f = Raise IndexError.
Proof.
  intros Hname Htask Hcb Hcount Hz Hchan Hres.
  unfold _run_analysis, fragment_histogram.
  rewrite Hname. cbn [mbind result_bind]. rewrite Htask.
  cbn [mbind result_bind]. rewrite Hcb. cbn [mbind result_bind].
  rewrite (accumulate_bits_out_of_range self task f chan restored _ _
             (seq 0 (length (get_z_positions (dataSet self))))).
  - done.
  - done.
  - destruct (get_z_positions (dataSet self)); done.
  - apply Forall_replicate. unfold histogram_row. cbn [snd].
    rewrite length_replicate.
    pose proof histogramBins_length. unfold uint16_max in *. lia.
  - destruct (lookup_lt_is_Some_2 (get_bit_names cb) (get_bit_count cb)
                Hcount) as [b Hb].
    exists (get_bit_count cb), b. split; [by apply elem_of_enumerate|].
    unfold np_zeros. cbn [fst]. by rewrite length_replicate.
  - intros bi b Hin. apply Hchan.
    apply elem_of_enumerate in Hin. by eapply list_elem_of_lookup_2.
  - intros bi b i Hin. apply Hres.
    apply elem_of_enumerate in Hin. by eapply list_elem_of_lookup_2.
Qed.


End RunAnalysis.

(** A run of the fixture that returns, for the examples below. *)
Lemma fixture_run_returns :
  exists ds',
    _run_analysis (H := Fixture.ops)
      (Fixture.task (Fixture.data_set [0] ["bit1"] [[7; 9]] ∅) [[7; 9]]) 0
    = Ok ds'.
Proof.
  destruct (run_analysis_rows (H := Fixture.ops)
              (Fixture.task (Fixture.data_set [0] ["bit1"] [[7; 9]] ∅)
                 [[7; 9]])
              0 (VStr "warp") (Fixture.warp_of [[7; 9]])
              {| get_bit_names := ["bit1"]; get_bit_count := 1 |}
              (fun _ => 0) (fun _ _ => [[7; 9]]))
    as (h & ds' & _ & Hrun & _).
  - reflexivity.
  - reflexivity.
  - reflexivity.
  - simpl. lia.
  - intros b _. reflexivity.
  - intros b i _ _. reflexivity.
  - by exists ds'.
Defined.

Lemma run_analysis_histogram_of_example :
  exists ds' cb h,
    _run_analysis (H := Fixture.ops)
      (Fixture.task (Fixture.data_set [0] ["bit1"] [[7; 9]] ∅) [[7; 9]]) 0
    = Ok ds' /\
    numpy_results ds' !! 0 = Some h /\
    length h = get_bit_count cb.
Proof.
  destruct fixture_run_returns as [ds' Hrun]. exists ds'.
  destruct (run_analysis_histogram_of (H := Fixture.ops) _ _ _ Hrun)
    as (cb & h & _ & Hsaved & Hlen & _).
  exists cb, h. split; [exact Hrun|]. split; [exact Hsaved|exact Hlen].
Defined.

Lemma run_analysis_read_back_example :
  exists ds' h,
    _run_analysis (H := Fixture.ops)
      (Fixture.task (Fixture.data_set [0] ["bit1"] [[7; 9]] ∅) [[7; 9]]) 0
    = Ok ds' /\
    get_pixel_histogram ds' (Some 0) = Ok h.
Proof.
  destruct fixture_run_returns as [ds' Hrun]. exists ds'.
  destruct (run_analysis_read_back (H := Fixture.ops) _ _ _ Hrun)
    as (h & _ & Hread & _).
  exists h. split; [exact Hrun|exact Hread].
Defined.

Lemma run_analysis_again_example :
  exists ds',
    _run_analysis (H := Fixture.ops)
      (Fixture.task (Fixture.data_set [0] ["bit1"] [[7; 9]] ∅) [[7; 9]]) 0
    = Ok ds' /\
    _run_analysis (H := Fixture.ops)
      (with_dataSet
         (Fixture.task (Fixture.data_set [0] ["bit1"] [[7; 9]] ∅) [[7; 9]])
         ds') 0
    = Ok ds'.
Proof.
  destruct fixture_run_returns as [ds' Hrun]. exists ds'.
  split; [exact Hrun|].
  exact (run_analysis_again (H := Fixture.ops) _ _ _ Hrun).
Defined.

Lemma run_analysis_more_names_than_bits_example :
  _run_analysis (H := Fixture.ops)
    (Fixture.task Fixture3.short_count_set [[5; 0]]) 0
  = Raise IndexError.
Proof.
  apply (run_analysis_more_names_than_bits (H := Fixture.ops)
           (Fixture.task Fixture3.short_count_set [[5; 0]]) 0
           (VStr "warp") (Fixture.warp_of [[5; 0]])
           {| get_bit_names := ["bit1"; "bit2"]; get_bit_count := 1 |}
           (fun _ => 0) (fun _ _ => [[5; 0]])).
  - reflexivity.
  - reflexivity.
  - reflexivity.
  - simpl. lia.
  - discriminate.
  - intros b _. reflexivity.
  - intros b i _ _. reflexivity.
Defined.


(** ** More on the aggregate *)

Lemma broadcast_row_Ok (c : nat) (row row' : list Z) :
  broadcast_row c row = Ok row' -> length row' = c.
Proof.
  unfold broadcast_row. case_decide as Hlen.
  - intros Hrow. by injection Hrow as <-.
  - destruct row as [|x [|y row]]; try discriminate.
    intros Hrow. injection Hrow as <-. by rewrite length_replicate.
Qed.

Lemma broadcast_row_Raise (c : nat) (row : list Z) (e : exn) :
  broadcast_row c row = Raise e -> e = ValueError.
Proof.
  unfold broadcast_row. case_decide; [discriminate|].
  destruct row as [|x [|y row]]; intros Hrow; congruence.
Qed.

Lemma mapM_Raise {A B} (f : A -> result B) (l : list A) (e : exn) :
  mapM f l = Raise e -> exists x, x ∈ l /\ f x = Raise e.
Proof.
  induction l as [|x l IH]; cbn [mapM]; [discriminate|].
  destruct (f x) as [y|e'] eqn:Hx.
  - simpl. destruct (mapM f l) as [k|e'] eqn:Hl; [discriminate|].
    intros He. injection He as <-.
    destruct IH as (x' & Hin & Hx'); [done|].
    exists x'. split; [by right|done].
  - intros He. injection He as <-. exists x. split; [left|done].
Qed.

Lemma broadcast_to_Ok (sh : nat * nat) (h h' : image Z) :
  broadcast_to sh h = Ok h' -> has_shape sh h'.
Proof.
  unfold broadcast_to.
  destruct (mapM (broadcast_row (snd sh)) h) as [rows|e] eqn:Hrows;
    [|discriminate].
  simpl. apply mapM_Ok in Hrows.
  assert (Hwidth : Forall (fun row => length row = snd sh) rows).
  { clear -Hrows. induction Hrows as [|r r' h rows Hr _ IH];
      constructor; [|done].
    by eapply broadcast_row_Ok. }
  case_decide as Hlen.
  - intros Hh. by injection Hh as <-.
  - destruct rows as [|row [|row2 rows]]; try discriminate.
    intros Hh. injection Hh as <-. split.
    + by rewrite length_replicate.
    + apply Forall_replicate. by inversion Hwidth.
Qed.

Lemma broadcast_to_Raise (sh : nat * nat) (h : image Z) (e : exn) :
  broadcast_to sh h = Raise e -> e = ValueError.
Proof.
  unfold broadcast_to.
  destruct (mapM (broadcast_row (snd sh)) h) as [rows|e'] eqn:Hrows.
  - simpl. case_decide; [discriminate|].
    destruct rows as [|row [|row2 rows]]; intros He; congruence.
  - simpl. intros He. injection He as <-.
    apply mapM_Raise in Hrows as (row & _ & Hrow).
    by eapply broadcast_row_Raise.
Qed.

Lemma np_iadd_Ok (sh : nat * nat) (acc h acc' : image Z) :
  has_shape sh acc -> np_iadd acc h = Ok acc' -> has_shape sh acc'.
Proof.
  intros Hacc. unfold np_iadd.
  destruct (broadcast_to (shape acc) h) as [h'|e] eqn:Hh; [|discriminate].
  simpl. intros Hadd. injection Hadd as <-.
  destruct acc as [|row acc]; [done|].
  apply broadcast_to_Ok in Hh.
  rewrite (shape_has_shape _ sh Hacc) in Hh by done.
  by apply has_shape_add.
Qed.

Lemma np_iadd_Raise (acc h : image Z) (e : exn) :
  np_iadd acc h = Raise e -> e = ValueError.
Proof.
  unfold np_iadd.
  destruct (broadcast_to (shape acc) h) as [h'|e'] eqn:Hh; [discriminate|].
  simpl. intros He. injection He as <-. by eapply broadcast_to_Raise.
Qed.

(** X17: whenever the aggregate is returned it has the shape of the
    histogram of the first fragment, whatever the shapes of the other
    histograms: one that broadcasts is added, one that does not stops
    the call. *)
Theorem aggregate_shape (ds : DataSet) (agg : image Z) :
  get_pixel_histogram ds None = Ok agg ->
  exists f0 h0,
    head (get_fovs ds) = Some f0 /\
    numpy_results ds !! f0 = Some h0 /\
    has_shape (shape h0) agg.
Proof.
  intros Hagg.
  destruct (get_fovs ds) as [|f0 fovs] eqn:Hfovs.
  { unfold get_pixel_histogram in Hagg. by rewrite Hfovs in Hagg. }
  rewrite (aggregate_unfold ds f0 fovs Hfovs) in Hagg.
  destruct (numpy_results ds !! f0) as [h0|] eqn:Hf0; [|discriminate].
  exists f0, h0. split; [done|]. split; [done|].
  eapply foldM_invariant; [| |exact Hagg].
  - intros acc f acc' Hacc. simpl.
    destruct (load_numpy_analysis_result ds f) as [h|e]; [|discriminate].
    simpl. by apply np_iadd_Ok.
  - apply np_zeros_has_shape.
Qed.

Lemma aggregate_shape_example :
  get_pixel_histogram
    (Fixture.data_set [0; 1] ["bit1"] [[0]]
       {[ 0 := [[1; 2]; [3; 4]]; 1 := [[10; 20]] ]}) None
  = Ok [[11; 22]; [13; 24]] /\
  has_shape (2%nat, 2%nat) [[11; 22]; [13; 24]].
Proof.
  assert (Hagg : get_pixel_histogram
            (Fixture.data_set [0; 1] ["bit1"] [[0]]
               {[ 0 := [[1; 2]; [3; 4]]; 1 := [[10; 20]] ]}) None
          = Ok [[11; 22]; [13; 24]]) by reflexivity.
  split; [exact Hagg|].
  destruct (aggregate_shape _ _ Hagg) as (f0 & h0 & Hhead & Hf0 & Hshape).
  simpl in Hhead. injection Hhead as <-.
  vm_compute in Hf0. injection Hf0 as <-. exact Hshape.
Defined.

Lemma accumulate_Raise (ds : DataSet) (fovs : list Z) (acc : image Z)
    (e : exn) :
  foldM (fun pixelHistogram f =>
           h ← load_numpy_analysis_result ds f;
           np_iadd pixelHistogram h) acc fovs = Raise e ->
  e = ValueError \/
  exists f, f ∈ fovs /\ numpy_results ds !! f = None /\
            e = HistogramNotFound f.
Proof.
  revert acc. induction fovs as [|f fovs IH]; intros acc; [discriminate|].
  cbn [foldM].
  destruct (numpy_results ds !! f) as [h|] eqn:Hf.
  - rewrite (load_persisted _ _ _ Hf). cbn [mbind result_bind].
    destruct (np_iadd acc h) as [acc'|e'] eqn:Hadd.
    + cbn [mbind result_bind]. intros Hfold.
      destruct (IH _ Hfold) as [->|(f' & Hin & Hf' & ->)]; [by left|].
      right. exists f'. split; [by right|done].
    + cbn [mbind result_bind]. intros He. injection He as <-. left.
      by eapply np_iadd_Raise.
  - rewrite (load_missing _ _ Hf). cbn [mbind result_bind].
    intros He. injection He as <-. right. exists f. split; [left|done].
Qed.

(** X18: the only ways in which the aggregate fails: an IndexError
    exactly when the task has no fragment ([fragment_count] is 0), the
    error of the store for a fragment of the list that is not
    persisted, or a ValueError for a histogram whose shape does not
    broadcast to the shape of the first one. *)
Theorem aggregate_failures (self : DeconvolutionPreprocess) (e : exn) :
  get_pixel_histogram (dataSet self) None = Raise e ->
  (e = IndexError /\ fragment_count self = 0%nat) \/
  (e = ValueError /\ fragment_count self <> 0%nat) \/
  (exists f, f ∈ get_fovs (dataSet self) /\
             numpy_results (dataSet self) !! f = None /\
             e = HistogramNotFound f).
Proof.
  unfold fragment_count. intros Hagg.
  destruct (get_fovs (dataSet self)) as [|f0 fovs] eqn:Hfovs.
  { left. unfold get_pixel_histogram in Hagg. rewrite Hfovs in Hagg.
    simpl in Hagg. by injection Hagg as <-. }
  right. rewrite (aggregate_unfold _ f0 fovs Hfovs) in Hagg.
  destruct (numpy_results (dataSet self) !! f0) as [h0|] eqn:Hf0.
  - destruct (accumulate_Raise _ _ _ _ Hagg) as [->|(f & Hin & Hf & ->)].
    + by left.
    + right. by exists f.
  - right. exists f0. injection Hagg as <-. split; [left|done].
Qed.

Lemma aggregate_failures_example :
  get_pixel_histogram
    (Fixture.data_set [0; 1] ["bit1"] [[0]]
       {[ 0 := [[1; 2]; [3; 4]]; 1 := [[1; 2; 3]] ]}) None
  = Raise ValueError.
Proof.
  destruct (aggregate_failures
              (Fixture.task
                 (Fixture.data_set [0; 1] ["bit1"] [[0]]
                    {[ 0 := [[1; 2]; [3; 4]]; 1 := [[1; 2; 3]] ]})
                 [[0]])
              ValueError) as [[_ _]|_]; reflexivity.
Defined.

(** ** The processed stack *)

Lemma compressed_name_differs (imgName : string) :
  imgName +:+ ".zstd" <> imgName.
Proof.
  intros Heq. apply (f_equal String.length) in Heq.
  rewrite string_length_app in Heq. simpl in Heq. lia.
Qed.

Lemma writer_save_other (fs : files) (imgName path : string) (p : page) :
  path <> imgName -> writer_save fs imgName p !! path = fs !! path.
Proof.
  intros Hne. unfold writer_save.
  destruct (fs !! imgName) as [[pages|c|c]|]; try done.
  by rewrite lookup_insert_ne.
Qed.

Lemma length_pairs {A B} (l : list A) (k : list B) :
  length (x ← l; y ← k; [(x, y)]) = (length l * length k)%nat.
Proof.
  induction l as [|x l IH]; [done|].
  rewrite bind_cons, length_app, IH. cbn [length Nat.mul]. f_equal.
  clear. induction k as [|y k IH]; [done|].
  rewrite bind_cons. simpl. by rewrite IH.
Qed.

(** The files after lines 108-111, when every call returns. *)
Lemma compress_and_remove_returns (io : StackIO) (fs : files)
    (imgName compressedImgName : string) (original : content) :
  all_return io ->
  fs !! imgName = Some original ->
  compress_and_remove io fs imgName compressedImgName
  = (delete imgName (<[compressedImgName := Zstd original]> fs), None).
Proof.
  intros (_ & Hc & Hr & Hw & Hcopy & Hrm) Hfile.
  unfold compress_and_remove.
  rewrite Hc, Hfile, Hr, Hw, Hcopy, Hrm. by rewrite insert_insert_eq.
Qed.

(** The files after lines 108-111, when one of the calls raises: the
    container is still there, and the compressed file is untouched, or
    it is incomplete because [copy_stream] raised, or it is complete
    because only [os.remove] raised. *)
Lemma compress_and_remove_raises (io : StackIO) (fs fs' : files)
    (imgName compressedImgName : string) (e : exn) :
  compressedImgName <> imgName ->
  compress_and_remove io fs imgName compressedImgName = (fs', Some e) ->
  fs' !! imgName = fs !! imgName /\
  (forall path, path <> compressedImgName -> fs' !! path = fs !! path) /\
  (fs' = fs \/
   (exists original,
      fs !! imgName = Some original /\ copy_stream io = Some e /\
      fs' !! compressedImgName = Some (Partial original)) \/
   (exists original,
      fs !! imgName = Some original /\ os_remove io = Some e /\
      fs' !! compressedImgName = Some (Zstd original))).
Proof.
  intros Hne. unfold compress_and_remove.
  destruct (ZstdCompressor io) as [e1|].
  { intros Hrun. injection Hrun as <- _. split; [done|]. split; [done|].
    by left. }
  destruct (fs !! imgName) as [original|] eqn:Hfile.
  2: { intros Hrun. injection Hrun as <- _. split; [done|].
       split; [done|]. by left. }
  destruct (open_rb io) as [e1|].
  { intros Hrun. injection Hrun as <- _. split; [done|]. split; [done|].
    by left. }
  destruct (open_wb io) as [e1|].
  { intros Hrun. injection Hrun as <- _. split; [done|]. split; [done|].
    by left. }
  destruct (copy_stream io) as [e1|] eqn:Hcopy.
  { intros Hrun. injection Hrun as <- <-.
    split; [by rewrite lookup_insert_ne|].
    split; [intros path Hp; by rewrite lookup_insert_ne|].
    right. left. exists original. split; [done|]. split; [done|].
    apply lookup_insert_eq. }
  destruct (os_remove io) as [e1|] eqn:Hrm; [|discriminate].
  intros Hrun. injection Hrun as <- <-.
  split; [by rewrite !lookup_insert_ne|].
  split; [intros path Hp; by rewrite !lookup_insert_ne|].
  right. right. exists original. split; [done|]. split; [done|].
  apply lookup_insert_eq.
Qed.

Section StackProperties.
Context `{ImageOps}.

Lemma for_each_other (self : DeconvolutionPreprocess)
    (org : DataOrganization) (fov : Z) (cc : option ChromaticCorrector)
    (description imgName : string) (entries : list (Z * nat))
    (fs fs' : files) (outcome : option exn) (path : string) :
  for_each (save_stack_page self org fov cc description imgName) fs entries
  = (fs', outcome) ->
  path <> imgName -> fs' !! path = fs !! path.
Proof.
  intros Hrun Hne. revert fs Hrun.
  induction entries as [|entry entries IH]; intros fs Hrun.
  - simpl in Hrun. by injection Hrun as <- _.
  - cbn [for_each] in Hrun. unfold save_stack_page at 1 in Hrun.
    destruct (stack_page self org fov cc description entry) as [p|e].
    + rewrite (IH _ Hrun). by apply writer_save_other.
    + by injection Hrun as <- _.
Qed.

Lemma for_each_saved (self : DeconvolutionPreprocess)
    (org : DataOrganization) (fov : Z) (cc : option ChromaticCorrector)
    (description imgName : string) (pg : Z * nat -> page)
    (entries : list (Z * nat)) (fs : files) (pages : list page) :
  (forall entry, entry ∈ entries ->
     stack_page self org fov cc description entry = Ok (pg entry)) ->
  fs !! imgName = Some (Tiff pages) ->
  for_each (save_stack_page self org fov cc description imgName) fs entries
  = (<[imgName := Tiff (pages ++ (pg <$> entries))]> fs, None).
Proof.
  revert fs pages. induction entries as [|entry entries IH];
    intros fs pages Hpages Hfile.
  - simpl. rewrite app_nil_r. by rewrite insert_id.
  - cbn [for_each]. unfold save_stack_page at 1.
    rewrite (Hpages entry) by left.
    unfold writer_save. rewrite Hfile.
    rewrite (IH _ (pages ++ [pg entry])).
    + rewrite insert_insert_eq, fmap_cons, <- app_assoc. done.
    + intros entry' Hin. apply Hpages. by right.
    + apply lookup_insert_eq.
Qed.

(** While the pages are written the container is a container. *)
Lemma for_each_container (self : DeconvolutionPreprocess)
    (org : DataOrganization) (fov : Z) (cc : option ChromaticCorrector)
    (description imgName : string) (entries : list (Z * nat))
    (fs fs' : files) (outcome : option exn) :
  (exists pages, fs !! imgName = Some (Tiff pages)) ->
  for_each (save_stack_page self org fov cc description imgName) fs entries
  = (fs', outcome) ->
  exists pages, fs' !! imgName = Some (Tiff pages).
Proof.
  revert fs. induction entries as [|entry entries IH]; intros fs Hstart Hrun.
  - simpl in Hrun. by injection Hrun as <- _.
  - cbn [for_each] in Hrun. unfold save_stack_page at 1 in Hrun.
    destruct (stack_page _ _ _ _ _ entry) as [p|e].
    + apply (IH (writer_save fs imgName p)); [|exact Hrun].
      destruct Hstart as [pages Hpages]. unfold writer_save.
      rewrite Hpages. eexists. apply lookup_insert_eq.
    + by injection Hrun as <- _.
Qed.



End StackProperties.


